(** * assay/unix.py: descriptor pollers that hand back objects, and cpu_count

    A shallow embedding of [EPoll], [KQueue] and [cpu_count] of
    [src/assay/unix.py].

    The Python code talks to three things it does not define: the objects it
    is given (through [obj.fileno()]), the [select] module (epoll and kqueue
    objects) and the file system.  All three are kept abstract: a
    [Platform] gives, for every such call, a function from the state of the
    outside world to a result and a new state of the world.  The methods of
    the two classes are written in a state-and-exception monad over
    [self.fdmap], the world, and the trace of the outside calls made so
    far.  A generator ([events]) is a frame that [resume] runs from one
    suspension point to the next. *)

From Stdlib Require Import Ascii String.
From stdpp Require Import gmap strings list.
From Equations Require Import Equations.

Open Scope Z_scope.

(** ** Exceptions and results *)

(** The exception classes the code can tell apart.  [IOError] carries its
    [errno] attribute ([None] when the exception was built without one);
    [KeyError] is what a failed [dict] lookup or [del] raises; every other
    class ([ValueError], [GeneratorExit], ...) is [OtherError] with its
    name.  [StopIteration] and its subclasses are not among them: none of
    the calls the code makes raises one, and what becomes of one that
    leaves a generator depends on the version of Python (it ends the
    iteration before PEP 479 and is turned into [RuntimeError] since). *)
Inductive exn :=
| IOError (errno : option Z)
| KeyError (key : Z)
| OtherError (cls : string).

Inductive result (A : Type) :=
| Ok (a : A)
| Raise (e : exn).
Arguments Ok {A} a.
Arguments Raise {A} e.

(** ** What the code reaches outside itself *)

(** The attributes of a [select.kevent] object. *)
Module select.
Record kevent := Kevent {
  ident : Z;
  filter : Z;
  flags : Z;
  fflags : Z;
  data : Z;
  udata : Z
}.
End select.
Abbreviation kevent := select.kevent.

(** [select.kevent(ident, filter, flags)], with [fflags], [data] and
    [udata] left at their default 0. *)
Definition select_kevent (ident filter flags : Z) : kevent :=
  {| select.ident := ident; select.filter := filter; select.flags := flags;
     select.fflags := 0; select.data := 0; select.udata := 0 |}.

(** One entry of the trace: an outside call with the arguments it got. *)
Inductive call (Obj : Type) :=
| Cfileno (obj : Obj)
| Cepoll_register (fd flags : Z)
| Cepoll_unregister (fd : Z)
| Cepoll_poll
| Ckqueue_control (changelist : option (list kevent)) (max_events : Z)
| Ckqueue_close.
Arguments Cfileno {Obj} obj.
Arguments Cepoll_register {Obj} fd flags.
Arguments Cepoll_unregister {Obj} fd.
Arguments Cepoll_poll {Obj}.
Arguments Ckqueue_control {Obj} changelist max_events.
Arguments Ckqueue_close {Obj}.

Definition is_fileno {Obj} (c : call Obj) : bool :=
  match c with Cfileno _ => true | _ => false end.

Definition is_kernel_call {Obj} (c : call Obj) : bool :=
  match c with Cfileno _ => false | _ => true end.

Definition is_close {Obj} (c : call Obj) : bool :=
  match c with Ckqueue_close => true | _ => false end.

(** The constants of [select] and [errno] the code names, and the behaviour
    of every outside call, for objects of type [Obj] and a world of type
    [W]. *)
Class Platform (Obj W : Type) := {
  EPOLLIN : Z;
  KQ_FILTER_READ : Z;
  KQ_EV_ADD : Z;
  KQ_EV_ENABLE : Z;
  KQ_EV_DELETE : Z;
  EINTR : Z;
  (* obj.fileno() *)
  obj_fileno : Obj → W → result Z * W;
  (* self.poller.register(fd, flags), on a select.epoll object *)
  epoll_register : Z → Z → W → result () * W;
  (* self.poller.unregister(fd) *)
  epoll_unregister : Z → W → result () * W;
  (* self.poller.poll(): a list of (fd, flags) pairs *)
  epoll_poll : W → result (list (Z * Z)) * W;
  (* self.poller.control(changelist, max_events), on a select.kqueue object *)
  kqueue_control : option (list kevent) → Z → W → result (list kevent) * W;
  (* self.poller.close() *)
  kqueue_close : W → result () * W
}.

(** ** The state of a poller, and the monad of its methods *)

Section Monad.
Context {Obj W : Type}.

(** [self.fdmap], the world behind [self.poller] and the objects, and the
    calls made so far, oldest first. *)
Record state := State {
  fdmap : gmap Z Obj;
  world : W;
  trace : list (call Obj)
}.

Definition M (A : Type) : Type := state → result A * state.

#[export] Instance M_ret : MRet M := λ A a s, (Ok a, s).

#[export] Instance M_bind : MBind M := λ A B k m s,
  match m s with
  | (Ok a, s') => k a s'
  | (Raise e, s') => (Raise e, s')
  end.

(** An outside call: the world answers, the trace grows by the call. *)
Definition outside {A} (c : call Obj) (f : W → result A * W) : M A :=
  λ s, let '(r, w) := f (world s) in
       (r, {| fdmap := fdmap s; world := w; trace := trace s ++ [c] |}).

(** [self.fdmap[fd] = obj] *)
Definition fdmap_setitem (fd : Z) (obj : Obj) : M () :=
  λ s, (Ok (), {| fdmap := <[fd := obj]> (fdmap s);
                  world := world s; trace := trace s |}).

(** [del self.fdmap[fd]] *)
Definition fdmap_delitem (fd : Z) : M () :=
  λ s, match fdmap s !! fd with
       | Some _ => (Ok (), {| fdmap := delete fd (fdmap s);
                              world := world s; trace := trace s |})
       | None => (Raise (KeyError fd), s)
       end.

(** [self.fdmap[fd]] *)
Definition fdmap_getitem (fd : Z) : M Obj :=
  λ s, match fdmap s !! fd with
       | Some obj => (Ok obj, s)
       | None => (Raise (KeyError fd), s)
       end.
End Monad.
Arguments state : clear implicits.
Arguments M : clear implicits.

(** ** Generators *)

(** What the consumer does to a generator: [next(g)] or [g.throw(e)], for
    an exception [e] of the classes of [exn].  ([g.close()] throws
    [GeneratorExit] in as [throw] does, but keeps to itself the
    [GeneratorExit] that comes back: its caller gets [None].) *)
Inductive send :=
| Next
| Throw (e : exn).

(** What the consumer gets back: a yielded pair, an exception,
    [StopIteration], or nothing yet after the loop iterations it was willing
    to wait for. *)
Inductive outcome (Obj : Type) :=
| Yield (obj : Obj) (flags : Z)
| Raised (e : exn)
| StopIteration
| Polling.
Arguments Yield {Obj} obj flags.
Arguments Raised {Obj} e.
Arguments StopIteration {Obj}.
Arguments Polling {Obj}.

(** How the body of the [try] statement leaves: the [for] loop ran out of
    events, it stopped at a [yield], or an exception is on its way out. *)
Inductive signal (Obj E : Type) :=
| Exhausted
| Yielding (obj : Obj) (flags : Z) (rest : list E)
| Raising (e : exn).
Arguments Exhausted {Obj E}.
Arguments Yielding {Obj E} obj flags rest.
Arguments Raising {Obj E} e.

(** A generator object: not started, suspended at the [yield] with the part
    of the polled list the [for] loop has not visited, finished, or still
    inside a call that has not come back. *)
Inductive frame (E : Type) :=
| Created
| Suspended (rest : list E)
| Finished
| Running.
Arguments Created {E}.
Arguments Suspended {E} rest.
Arguments Finished {E}.
Arguments Running {E}.

(** ** class EPoll *)

Module EPoll.
Section EPoll.
Context {Obj W : Type} `{!Platform Obj W}.

(** [__init__]: an empty [fdmap]; [select.epoll()] is the world [w]. *)
Definition init (w : W) : state Obj W :=
  {| fdmap := ∅; world := w; trace := [] |}.

(** [register(self, obj, flags=select.EPOLLIN)]: [None] is the call that
    leaves [flags] out. *)
Definition register (obj : Obj) (flags : option Z) : M Obj W () :=
  let flags := default EPOLLIN flags in
  fd ← outside (Cfileno obj) (obj_fileno obj);
  fdmap_setitem fd obj ;;
  outside (Cepoll_register fd flags) (epoll_register fd flags).

(** [unregister(self, obj)] *)
Definition unregister (obj : Obj) : M Obj W () :=
  fd ← outside (Cfileno obj) (obj_fileno obj);
  fdmap_delitem fd ;;
  outside (Cepoll_unregister fd) (epoll_unregister fd).

(** Line 89-90, from the point where the [for] loop asks its list for the
    next pair: [yield self.fdmap[fd], flags]. *)
Definition for_loop (evs : list (Z * Z)) (s : state Obj W)
  : signal Obj (Z * Z) :=
  match evs with
  | [] => Exhausted
  | (fd, flags) :: rest =>
      match fdmap_getitem fd s with
      | (Ok obj, _) => Yielding obj flags rest
      | (Raise e, _) => Raising e
      end
  end.

(** Lines 91-93: [except IOError as e: if e.errno != errno.EINTR: raise].
    A caught interruption ends the [try] statement normally. *)
Definition except_clause {E} (sg : signal Obj E) : signal Obj E :=
  match sg with
  | Raising (IOError errno) =>
      if decide (errno ≠ Some EINTR) then Raising (IOError errno)
      else Exhausted
  | _ => sg
  end.

(** Line 89: the [try] body entered from the top, which polls first. *)
Definition try_poll (s : state Obj W) : signal Obj (Z * Z) * state Obj W :=
  match outside Cepoll_poll epoll_poll s with
  | (Ok evs, s') => (for_loop evs s', s')
  | (Raise e, s') => (Raising e, s')
  end.

(** Lines 87-93: [while True: try: ... except ...], for at most [fuel]
    polls.  Nothing follows the loop, so leaving it would end the
    generator. *)
Fixpoint while_loop (fuel : nat) (s : state Obj W)
  : outcome Obj * frame (Z * Z) * state Obj W :=
  match fuel with
  | O => (Polling, Running, s)
  | S fuel =>
      if true then
        let '(sg, s') := try_poll s in
        match except_clause sg with
        | Exhausted => while_loop fuel s'
        | Yielding obj flags rest => (Yield obj flags, Suspended rest, s')
        | Raising e => (Raised e, Finished, s')
        end
      else (StopIteration, Finished, s)
  end.

(** [events(self)] makes the generator object; nothing runs yet. *)
Definition events : frame (Z * Z) := Created.

(** One [next] or [throw] on the generator. *)
Definition resume (fuel : nat) (x : send) (g : frame (Z * Z))
    (s : state Obj W) : outcome Obj * frame (Z * Z) * state Obj W :=
  match g, x with
  | Created, Next => while_loop fuel s
  | Created, Throw e => (Raised e, Finished, s)
  | Suspended rest, _ =>
      let sg := match x with
                | Next => for_loop rest s
                | Throw e => Raising e
                end in
      match except_clause sg with
      | Exhausted => while_loop fuel s
      | Yielding obj flags rest' => (Yield obj flags, Suspended rest', s)
      | Raising e => (Raised e, Finished, s)
      end
  | Finished, Next => (StopIteration, Finished, s)
  | Finished, Throw e => (Raised e, Finished, s)
  | Running, _ => (Polling, Running, s)
  end.

(** What a caller does with a poller and the generator it got from
    [events()], one call after the other. *)
Inductive action :=
  | Register (obj : Obj) (flags : option Z)
  | Unregister (obj : Obj)
  | Resume (x : send).

(** The calls of a caller that goes on after an exception of [register]
    or [unregister] (it caught it), with what each [Resume] gave it. *)
Fixpoint session (fuel : nat) (acts : list action) (g : frame (Z * Z))
    (s : state Obj W) : list (outcome Obj) * frame (Z * Z) * state Obj W :=
  match acts with
  | [] => ([], g, s)
  | Register obj flags :: acts => session fuel acts g (register obj flags s).2
  | Unregister obj :: acts => session fuel acts g (unregister obj s).2
  | Resume x :: acts =>
      let '(out, g', s') := resume fuel x g s in
      let '(outs, g'', s'') := session fuel acts g' s' in
      (out :: outs, g'', s'')
  end.
End EPoll.
End EPoll.

(** ** class KQueue *)

Module KQueue.
Section KQueue.
Context {Obj W : Type} `{!Platform Obj W}.

(** [__init__]: an empty [fdmap]; [select.kqueue()] is the world [w]. *)
Definition init (w : W) : state Obj W :=
  {| fdmap := ∅; world := w; trace := [] |}.

(** [register(self, obj)] *)
Definition register (obj : Obj) : M Obj W () :=
  fd ← outside (Cfileno obj) (obj_fileno obj);
  fdmap_setitem fd obj ;;
  let event := [select_kevent fd KQ_FILTER_READ
                  (Z.lor KQ_EV_ADD KQ_EV_ENABLE)] in
  _ ← outside (Ckqueue_control (Some event) 0)
              (kqueue_control (Some event) 0);
  mret ().

(** [unregister(self, obj)] *)
Definition unregister (obj : Obj) : M Obj W () :=
  fd ← outside (Cfileno obj) (obj_fileno obj);
  fdmap_delitem fd ;;
  let event := [select_kevent fd KQ_FILTER_READ KQ_EV_DELETE] in
  _ ← outside (Ckqueue_control (Some event) 0)
              (kqueue_control (Some event) 0);
  mret ().

(** Lines 126-127, from the point where the [for] loop asks its list for
    the next event: [yield self.fdmap[event.ident], event.flags]. *)
Definition for_loop (evs : list kevent) (s : state Obj W)
  : signal Obj kevent :=
  match evs with
  | [] => Exhausted
  | event :: rest =>
      match fdmap_getitem (select.ident event) s with
      | (Ok obj, _) => Yielding obj (select.flags event) rest
      | (Raise e, _) => Raising e
      end
  end.

(** Lines 128-130: [except IOError as e: if e.errno != errno.EINTR: raise]. *)
Definition except_clause {E} (sg : signal Obj E) : signal Obj E :=
  match sg with
  | Raising (IOError errno) =>
      if decide (errno ≠ Some EINTR) then Raising (IOError errno)
      else Exhausted
  | _ => sg
  end.

(** Line 126: the [try] body entered from the top, which polls first:
    [self.poller.control(None, max_events=0)]. *)
Definition try_poll (s : state Obj W) : signal Obj kevent * state Obj W :=
  match outside (Ckqueue_control None 0) (kqueue_control None 0) s with
  | (Ok evs, s') => (for_loop evs s', s')
  | (Raise e, s') => (Raising e, s')
  end.

(** Line 131, the statement after the loop: [self.poller.close()], and
    then the end of the function body. *)
Definition after_loop (s : state Obj W)
  : outcome Obj * frame kevent * state Obj W :=
  match outside Ckqueue_close kqueue_close s with
  | (Ok _, s') => (StopIteration, Finished, s')
  | (Raise e, s') => (Raised e, Finished, s')
  end.

(** Lines 124-131: [while True: try: ... except ...] and what follows it,
    for at most [fuel] polls. *)
Fixpoint while_loop (fuel : nat) (s : state Obj W)
  : outcome Obj * frame kevent * state Obj W :=
  match fuel with
  | O => (Polling, Running, s)
  | S fuel =>
      if true then
        let '(sg, s') := try_poll s in
        match except_clause sg with
        | Exhausted => while_loop fuel s'
        | Yielding obj flags rest => (Yield obj flags, Suspended rest, s')
        | Raising e => (Raised e, Finished, s')
        end
      else after_loop s
  end.

(** [events(self)] makes the generator object; nothing runs yet. *)
Definition events : frame kevent := Created.

(** One [next] or [throw] on the generator. *)
Definition resume (fuel : nat) (x : send) (g : frame kevent)
    (s : state Obj W) : outcome Obj * frame kevent * state Obj W :=
  match g, x with
  | Created, Next => while_loop fuel s
  | Created, Throw e => (Raised e, Finished, s)
  | Suspended rest, _ =>
      let sg := match x with
                | Next => for_loop rest s
                | Throw e => Raising e
                end in
      match except_clause sg with
      | Exhausted => while_loop fuel s
      | Yielding obj flags rest' => (Yield obj flags, Suspended rest', s)
      | Raising e => (Raised e, Finished, s)
      end
  | Finished, Next => (StopIteration, Finished, s)
  | Finished, Throw e => (Raised e, Finished, s)
  | Running, _ => (Polling, Running, s)
  end.

Inductive action :=
  | Register (obj : Obj)
  | Unregister (obj : Obj)
  | Resume (x : send).

Fixpoint session (fuel : nat) (acts : list action) (g : frame kevent)
    (s : state Obj W) : list (outcome Obj) * frame kevent * state Obj W :=
  match acts with
  | [] => ([], g, s)
  | Register obj :: acts => session fuel acts g (register obj s).2
  | Unregister obj :: acts => session fuel acts g (unregister obj s).2
  | Resume x :: acts =>
      let '(out, g', s') := resume fuel x g s in
      let '(outs, g'', s'') := session fuel acts g' s' in
      (out :: outs, g'', s'')
  end.
End KQueue.
End KQueue.

(** ** cpu_count *)

Module CpuCount.
Local Open Scope string_scope.

(** What [os.path.exists(path)] answers, and what [open(path)] followed
    by [f.read()] gives. *)
Record filesystem := {
  os_path_exists : string → bool;
  open_read : string → result string
}.

(** [s[n:]] *)
Fixpoint str_drop (n : nat) (s : string) : string :=
  match n, s with
  | O, _ => s
  | S n, String _ s' => str_drop n s'
  | S _, EmptyString => EmptyString
  end.

(** The scan of [str.count] for a [sub] that is not empty: left to right,
    and past the whole match once one is found. *)
Equations? count_from (sub s : string) : nat by wf (String.length s) lt :=
  count_from sub EmptyString := O;
  count_from sub (String c s') with String.prefix sub (String c s') := {
    | true := S (count_from sub (str_drop (Nat.pred (String.length sub)) s'));
    | false := count_from sub s' }.
Proof.
  clear. generalize (Nat.pred (String.length sub)).
  induction s' as [|a s' IH]; intros [|n]; simpl; try lia.
  specialize (IH n). lia.
Qed.

(** [s.count(sub)]: the number of non-overlapping occurrences; an empty
    [sub] is found between all characters and at both ends. *)
Definition str_count (s sub : string) : Z :=
  match sub with
  | EmptyString => Z.of_nat (String.length s) + 1
  | _ => Z.of_nat (count_from sub s)
  end.

(** Lines 42-47. *)
Definition cpu_count (fs : filesystem) : result Z :=
  if os_path_exists fs "/proc/cpuinfo" then
    match open_read fs "/proc/cpuinfo" with
    | Ok contents => Ok (str_count contents (String "010"%char "bogomips"))
    | Raise e => Raise e
    end
  else Ok 2.

(** The places of [s] at which [sub] stands, counted one by one. *)
Fixpoint occurrences (sub s : string) : nat :=
  match s with
  | EmptyString => O
  | String _ s' =>
      (if String.prefix sub s then 1 else 0)%nat + occurrences sub s'
  end.
End CpuCount.

(** ** A scripted platform

    A platform small enough to run: an object is a name and the descriptor
    its [fileno()] reports, the world is the list of the answers the coming
    polls give (an empty list of events once the script is over), and the
    kernel accepts every change of interest.  The constants are those of
    Linux ([EPOLLIN], [EINTR]) and of the BSDs ([KQ_*]). *)

Module Scripted.
Record obj := Obj { name : string; fd : Z }.

Definition world := list (result (list (Z * Z))).

Definition poll (w : world) : result (list (Z * Z)) * world :=
  match w with
  | [] => (Ok [], [])
  | r :: w' => (r, w')
  end.

Definition as_kevents (r : result (list (Z * Z))) : result (list kevent) :=
  match r with
  | Ok evs => Ok (map (λ '(fd, fl), select_kevent fd (-1) fl) evs)
  | Raise e => Raise e
  end.

#[global] Instance platform : Platform obj world := {|
  EPOLLIN := 1;
  KQ_FILTER_READ := -1;
  KQ_EV_ADD := 1;
  KQ_EV_ENABLE := 4;
  KQ_EV_DELETE := 2;
  EINTR := 4;
  obj_fileno o w := (Ok (fd o), w);
  epoll_register _ _ w := (Ok (), w);
  epoll_unregister _ w := (Ok (), w);
  epoll_poll := poll;
  kqueue_control changelist _ w :=
    match changelist with
    | Some _ => (Ok [], w)
    | None => let '(r, w') := poll w in (as_kevents r, w')
    end;
  kqueue_close w := (Ok (), w)
|}.

Definition A : obj := {| name := "A"; fd := 5 |}.
Definition B : obj := {| name := "B"; fd := 5 |}.
Definition C : obj := {| name := "C"; fd := 7 |}.
End Scripted.

(** ** Notions the statements use *)

Section Notions.
Context {Obj W : Type} `{!Platform Obj W}.

(** The descriptor accessor is stable: [obj.fileno()] returns [fd_of obj]
    whenever it is called. *)
Definition stable_fileno (fd_of : Obj → Z) : Prop :=
  ∀ obj w, (obj_fileno obj w).1 = Ok (fd_of obj).

(** Every key of the map is the descriptor of the object stored under it. *)
Definition keyed (fd_of : Obj → Z) (m : gmap Z Obj) : Prop :=
  ∀ fd obj, m !! fd = Some obj → fd_of obj = fd.

(** [n] polls in a row, each interrupted by a signal, take the world from
    [w] to [w']. *)
Inductive epoll_interrupted : nat → W → W → Prop :=
| epoll_interrupted_O w : epoll_interrupted O w w
| epoll_interrupted_S n w w1 w' :
    epoll_poll w = (Raise (IOError (Some EINTR)), w1) →
    epoll_interrupted n w1 w' →
    epoll_interrupted (S n) w w'.

Inductive kqueue_interrupted : nat → W → W → Prop :=
| kqueue_interrupted_O w : kqueue_interrupted O w w
| kqueue_interrupted_S n w w1 w' :
    kqueue_control None 0 w = (Raise (IOError (Some EINTR)), w1) →
    kqueue_interrupted n w1 w' →
    kqueue_interrupted (S n) w w'.

(** The object of the last [register] call of [acts] whose object has
    descriptor [fd]. *)
Fixpoint epoll_latest (fd_of : Obj → Z) (fd : Z)
    (acts : list (@EPoll.action Obj)) (found : option Obj) : option Obj :=
  match acts with
  | [] => found
  | EPoll.Register obj _ :: acts =>
      epoll_latest fd_of fd acts
        (if decide (fd_of obj = fd) then Some obj else found)
  | _ :: acts => epoll_latest fd_of fd acts found
  end.

Fixpoint kqueue_latest (fd_of : Obj → Z) (fd : Z)
    (acts : list (@KQueue.action Obj)) (found : option Obj) : option Obj :=
  match acts with
  | [] => found
  | KQueue.Register obj :: acts =>
      kqueue_latest fd_of fd acts
        (if decide (fd_of obj = fd) then Some obj else found)
  | _ :: acts => kqueue_latest fd_of fd acts found
  end.
(** The one-element change list of [KQueue.register]. *)
Definition add_event (fd : Z) : list kevent :=
  [select_kevent fd KQ_FILTER_READ (Z.lor KQ_EV_ADD KQ_EV_ENABLE)].

(** The one-element change list of [KQueue.unregister]. *)
Definition delete_event (fd : Z) : list kevent :=
  [select_kevent fd KQ_FILTER_READ KQ_EV_DELETE].

(** [control] returns a list, which both methods drop. *)
Definition dropped {A} (r : result A) : result () :=
  match r with Ok _ => Ok () | Raise e => Raise e end.

(** The calls made between two states of one run. *)
Definition new_calls (s s' : state Obj W) : list (call Obj) :=
  drop (length (trace s)) (trace s').
End Notions.

(** ** More notions, for the properties beyond the claims *)

Section Quiet.
Context {Obj W : Type} `{!Platform Obj W}.

(** [n] polls in a row that give the [for] loop nothing to do, each
    interrupted by a signal or returning an empty list, take the world from
    [w] to [w']. *)
Inductive epoll_quiet : nat → W → W → Prop :=
| epoll_quiet_O w : epoll_quiet O w w
| epoll_quiet_interrupted n w w1 w' :
    epoll_poll w = (Raise (IOError (Some EINTR)), w1) →
    epoll_quiet n w1 w' →
    epoll_quiet (S n) w w'
| epoll_quiet_empty n w w1 w' :
    epoll_poll w = (Ok [], w1) →
    epoll_quiet n w1 w' →
    epoll_quiet (S n) w w'.

Inductive kqueue_quiet : nat → W → W → Prop :=
| kqueue_quiet_O w : kqueue_quiet O w w
| kqueue_quiet_interrupted n w w1 w' :
    kqueue_control None 0 w = (Raise (IOError (Some EINTR)), w1) →
    kqueue_quiet n w1 w' →
    kqueue_quiet (S n) w w'
| kqueue_quiet_empty n w w1 w' :
    kqueue_control None 0 w = (Ok [], w1) →
    kqueue_quiet n w1 w' →
    kqueue_quiet (S n) w w'.
End Quiet.

Section Registered.
Context {Obj : Type}.

(** The registration of descriptor [fd] that a sequence of calls leaves
    behind: the object of the last [register] call on an object with
    descriptor [fd], unless an [unregister] call on an object with that
    descriptor came after it; [now] is the registration before the
    sequence. *)
Fixpoint epoll_registered (fd_of : Obj → Z) (fd : Z)
    (acts : list (@EPoll.action Obj)) (now : option Obj) : option Obj :=
  match acts with
  | [] => now
  | EPoll.Register obj _ :: acts =>
      epoll_registered fd_of fd acts
        (if decide (fd_of obj = fd) then Some obj else now)
  | EPoll.Unregister obj :: acts =>
      epoll_registered fd_of fd acts
        (if decide (fd_of obj = fd) then None else now)
  | EPoll.Resume _ :: acts => epoll_registered fd_of fd acts now
  end.

Fixpoint kqueue_registered (fd_of : Obj → Z) (fd : Z)
    (acts : list (@KQueue.action Obj)) (now : option Obj) : option Obj :=
  match acts with
  | [] => now
  | KQueue.Register obj :: acts =>
      kqueue_registered fd_of fd acts
        (if decide (fd_of obj = fd) then Some obj else now)
  | KQueue.Unregister obj :: acts =>
      kqueue_registered fd_of fd acts
        (if decide (fd_of obj = fd) then None else now)
  | KQueue.Resume _ :: acts => kqueue_registered fd_of fd acts now
  end.
End Registered.

(** What a call does to the registration map, if anything: the kernel, the
    flags and the generator are left out. *)
Inductive change (Obj : Type) :=
| Added (obj : Obj)
| Removed (obj : Obj).
Arguments Added {Obj} obj.
Arguments Removed {Obj} obj.

Definition epoll_change {Obj} (a : @EPoll.action Obj) : option (change Obj) :=
  match a with
  | EPoll.Register obj _ => Some (Added obj)
  | EPoll.Unregister obj => Some (Removed obj)
  | EPoll.Resume _ => None
  end.

Definition kqueue_change {Obj} (a : @KQueue.action Obj)
  : option (change Obj) :=
  match a with
  | KQueue.Register obj => Some (Added obj)
  | KQueue.Unregister obj => Some (Removed obj)
  | KQueue.Resume _ => None
  end.

(** The changes carried out on a map, one after the other: an addition
    overwrites, a removal of a descriptor that is not a key does nothing. *)
Definition replay {Obj} (fd_of : Obj → Z) (cs : list (change Obj))
    (m : gmap Z Obj) : gmap Z Obj :=
  foldl (λ m c, match c with
                | Added obj => <[fd_of obj := obj]> m
                | Removed obj => delete (fd_of obj) m
                end) m cs.

(** A platform whose kernel refuses every change of interest: the objects
    are those of the scripted platform, adding interest fails with [EEXIST]
    (errno 17) and dropping it with [ENOENT] (errno 2); polls report
    nothing. *)
Module Refusing.
Definition world := unit.

Definition platform : Platform Scripted.obj world := {|
  EPOLLIN := 1;
  KQ_FILTER_READ := -1;
  KQ_EV_ADD := 1;
  KQ_EV_ENABLE := 4;
  KQ_EV_DELETE := 2;
  EINTR := 4;
  obj_fileno o w := (Ok (Scripted.fd o), w);
  epoll_register _ _ w := (Raise (IOError (Some 17)), w);
  epoll_unregister _ w := (Raise (IOError (Some 2)), w);
  epoll_poll w := (Ok [], w);
  kqueue_control changelist _ w :=
    match changelist with
    | Some [ev] =>
        (Raise (IOError (Some (if decide (select.flags ev = 2) then 2
                               else 17))), w)
    | _ => (Ok [], w)
    end;
  kqueue_close w := (Ok (), w)
|}.
End Refusing.


(** ** The terminal and descriptor helpers

    [configure_tty], [close_on_exec], [keep_on_exec], [discard_input] and
    [kill_dash_9] call [sys.stdin], [sys.stdout], [termios], [tty], [fcntl]
    and [os].  As for the pollers, every such call is an oracle of an [Os]
    class over a world, and the functions run in a state-and-exception
    monad over the world and the trace of the calls made.  A terminal mode
    (what [tcgetattr] returns) is a value of type [Mode], a file object one
    of type [File]. *)

Module Posix.

Inductive call (Mode File : Type) :=
| Cstdin_isatty
| Cstdout_isatty
| Cstdin_fileno
| Ctcgetattr (fd : Z)
| Csetcbreak (fd : Z)
| Ctcsetattr (fd when : Z) (mode : Mode)
| Cfile_fileno (fileobj : File)
| Cfcntl (fd cmd arg : Z)
| Cread (fd n : Z)
| Cdup (fd : Z)
| Cfdopen (fd : Z) (mode : string) (bufsize : Z)
| Ckill (pid sig : Z).
Arguments Cstdin_isatty {Mode File}.
Arguments Cstdout_isatty {Mode File}.
Arguments Cstdin_fileno {Mode File}.
Arguments Ctcgetattr {Mode File} fd.
Arguments Csetcbreak {Mode File} fd.
Arguments Ctcsetattr {Mode File} fd when mode.
Arguments Cfile_fileno {Mode File} fileobj.
Arguments Cfcntl {Mode File} fd cmd arg.
Arguments Cread {Mode File} fd n.
Arguments Cdup {Mode File} fd.
Arguments Cfdopen {Mode File} fd mode bufsize.
Arguments Ckill {Mode File} pid sig.

(** The constants the functions name, which exceptions are instances of
    [OSError] (that depends on the version of Python), the [mode] attribute
    of a file object, and the behaviour of every outside call. *)
Class Os (Mode File W : Type) := {
  TCSAFLUSH : Z;
  F_SETFD : Z;
  F_SETFL : Z;
  FD_CLOEXEC : Z;
  O_NONBLOCK : Z;
  SIGKILL : Z;
  isinstance_OSError : exn → bool;
  file_mode : File → string;
  (* sys.stdin.isatty(), sys.stdout.isatty(), sys.stdin.fileno() *)
  stdin_isatty : W → result bool * W;
  stdout_isatty : W → result bool * W;
  stdin_fileno : W → result Z * W;
  (* termios.tcgetattr(fd), tty.setcbreak(fd), termios.tcsetattr(fd, when, mode) *)
  tcgetattr : Z → W → result Mode * W;
  setcbreak : Z → W → result () * W;
  tcsetattr : Z → Z → Mode → W → result () * W;
  (* fileobj.fileno() *)
  file_fileno : File → W → result Z * W;
  (* fcntl.fcntl(fd, cmd, arg) *)
  fcntl : Z → Z → Z → W → result Z * W;
  (* os.read(fd, n), os.dup(fd), os.fdopen(fd, mode, bufsize), os.kill(pid, sig) *)
  os_read : Z → Z → W → result string * W;
  os_dup : Z → W → result Z * W;
  os_fdopen : Z → string → Z → W → result File * W;
  os_kill : Z → Z → W → result () * W
}.

Section Posix.
Context {Mode File W : Type} `{!Os Mode File W}.

(** The world and the calls made so far, oldest first. *)
Record io_state := IoState {
  io_world : W;
  io_trace : list (call Mode File)
}.

Definition IO (A : Type) : Type := io_state → result A * io_state.

#[export] Instance IO_ret : MRet IO := λ A a st, (Ok a, st).

#[export] Instance IO_bind : MBind IO := λ A B k m st,
  match m st with
  | (Ok a, st') => k a st'
  | (Raise e, st') => (Raise e, st')
  end.

Definition io_raise {A} (e : exn) : IO A := λ st, (Raise e, st).

(** An outside call: the world answers, the trace grows by the call. *)
Definition syscall {A} (c : call Mode File) (f : W → result A * W) : IO A :=
  λ st, let '(r, w) := f (io_world st) in
        (r, {| io_world := w; io_trace := io_trace st ++ [c] |}).

(** Line 13. *)
Definition _everything : Z := 1024 * 1024.

(** Lines 23-27 of [configure_tty], the part of the generator before the
    [yield]: it gives [isatty] and the locals [fd] and [original_mode],
    which are bound only when [isatty] is true.  [a and b] calls [b] only
    when [a] is true. *)
Definition configure_tty_enter : IO (bool * option (Z * Mode)) :=
  stdin_tty ← syscall Cstdin_isatty stdin_isatty;
  isatty ← (if stdin_tty : bool then syscall Cstdout_isatty stdout_isatty
            else mret stdin_tty);
  if isatty : bool then
    fd ← syscall Cstdin_fileno stdin_fileno;
    original_mode ← syscall (Ctcgetattr fd) (tcgetattr fd);
    syscall (Csetcbreak fd) (setcbreak fd);;
    mret (isatty, Some (fd, original_mode))
  else mret (isatty, None).

(** Lines 30-32, the [finally] clause. *)
Definition configure_tty_finally (isatty : bool)
    (locals : option (Z * Mode)) : IO () :=
  if isatty then
    match locals with
    | Some (fd, original_mode) =>
        syscall (Ctcsetattr fd TCSAFLUSH original_mode)
                (tcsetattr fd TCSAFLUSH original_mode)
    | None => io_raise (OtherError "UnboundLocalError")
    end
  else mret ().

(** [with configure_tty() as isatty: body], by the protocol of
    [contextlib.contextmanager]: the generator runs up to its [yield]; the
    body runs with the yielded value; then the generator is resumed, by
    [next] when the body ended and by [throw] of the body's exception when
    it raised.  Either way the [finally] clause runs, and what it raises
    replaces the outcome of the body. *)
Definition with_configure_tty {A} (body : bool → IO A) : IO A :=
  λ st,
    match configure_tty_enter st with
    | (Raise e, st1) => (Raise e, st1)
    | (Ok (isatty, locals), st1) =>
        let '(r, st2) := body isatty st1 in
        match configure_tty_finally isatty locals st2 with
        | (Ok _, st3) => (r, st3)
        | (Raise e, st3) => (Raise e, st3)
        end
    end.

(** Lines 34-36. *)
Definition close_on_exec (fd : Z) : IO () :=
  syscall (Cfcntl fd F_SETFD FD_CLOEXEC) (fcntl fd F_SETFD FD_CLOEXEC);;
  mret ().

(** Lines 38-40. *)
Definition keep_on_exec (fd : Z) : IO () :=
  syscall (Cfcntl fd F_SETFD 0) (fcntl fd F_SETFD 0);;
  mret ().

(** [try: m except OSError: pass] *)
Definition except_OSError_pass {A} (m : IO A) : IO () :=
  λ st,
    match m st with
    | (Ok _, st') => (Ok (), st')
    | (Raise e, st') =>
        if isinstance_OSError e then (Ok (), st') else (Raise e, st')
    end.

(** Lines 49-63. *)
Definition discard_input (fileobj : File) (bufsize : Z) : IO File :=
  fd ← syscall (Cfile_fileno fileobj) (file_fileno fileobj);
  syscall (Cfcntl fd F_SETFL O_NONBLOCK) (fcntl fd F_SETFL O_NONBLOCK);;
  except_OSError_pass
    (syscall (Cread fd _everything) (os_read fd _everything));;
  syscall (Cfcntl fd F_SETFL 0) (fcntl fd F_SETFL 0);;
  newfd ← syscall (Cdup fd) (os_dup fd);
  syscall (Cfdopen newfd (file_mode fileobj) bufsize)
          (os_fdopen newfd (file_mode fileobj) bufsize).

(** Lines 65-67. *)
Definition kill_dash_9 (pid : Z) : IO () :=
  syscall (Ckill pid SIGKILL) (os_kill pid SIGKILL).

(** The calls made between two states of one run. *)
Definition io_new_calls (st st' : io_state) : list (call Mode File) :=
  drop (length (io_trace st)) (io_trace st').
End Posix.
Arguments io_state : clear implicits.
Arguments IO : clear implicits.
End Posix.

(** A terminal and descriptors small enough to run.  The world is the mode
    of the terminal (a number; [setcbreak] makes it 1), the set of
    descriptors in non-blocking mode and what is queued for input; a file
    object is its descriptor and its mode; standard input is descriptor 0
    and a terminal, and so is standard output unless [piped].  Reading
    gives what is queued, or fails with [EAGAIN] (errno 11) when nothing
    is.  On a terminal that has [hung_up], [setcbreak] fails, and a read
    is cut short by [KeyboardInterrupt]. *)
Module Console.
Record world := World {
  piped : bool;
  hung_up : bool;
  termios_mode : Z;
  nonblocking : gset Z;
  queued : string
}.

Record file := File { file_fd : Z; mode : string }.

Definition set_mode (m : Z) (w : world) : world :=
  {| piped := piped w; hung_up := hung_up w; termios_mode := m;
     nonblocking := nonblocking w; queued := queued w |}.

Definition set_nonblocking (fds : gset Z) (w : world) : world :=
  {| piped := piped w; hung_up := hung_up w; termios_mode := termios_mode w;
     nonblocking := fds; queued := queued w |}.

Definition set_queued (q : string) (w : world) : world :=
  {| piped := piped w; hung_up := hung_up w; termios_mode := termios_mode w;
     nonblocking := nonblocking w; queued := q |}.

#[global] Instance os : Posix.Os Z file world := {|
  Posix.TCSAFLUSH := 2;
  Posix.F_SETFD := 2;
  Posix.F_SETFL := 4;
  Posix.FD_CLOEXEC := 1;
  Posix.O_NONBLOCK := 2048;
  Posix.SIGKILL := 9;
  Posix.isinstance_OSError e :=
    match e with IOError _ => true | _ => false end;
  Posix.file_mode := mode;
  Posix.stdin_isatty w := (Ok true, w);
  Posix.stdout_isatty w := (Ok (negb (piped w)), w);
  Posix.stdin_fileno w := (Ok 0, w);
  Posix.tcgetattr _ w := (Ok (termios_mode w), w);
  Posix.setcbreak _ w :=
    if hung_up w then (Raise (OtherError "termios.error"), w)
    else (Ok (), set_mode 1 w);
  Posix.tcsetattr _ _ m w := (Ok (), set_mode m w);
  Posix.file_fileno f w := (Ok (file_fd f), w);
  Posix.fcntl fd cmd arg w :=
    (Ok 0,
     if decide (cmd = 4) then
       set_nonblocking (if decide (arg = 0) then nonblocking w ∖ {[fd]}
                        else nonblocking w ∪ {[fd]}) w
     else w);
  Posix.os_read _ _ w :=
    if hung_up w then (Raise (OtherError "KeyboardInterrupt"), w)
    else match queued w with
         | EmptyString => (Raise (IOError (Some 11)), w)
         | _ => (Ok (queued w), set_queued EmptyString w)
         end;
  Posix.os_dup fd w := (Ok (fd + 100), w);
  Posix.os_fdopen fd m _ w := (Ok {| file_fd := fd; mode := m |}, w);
  Posix.os_kill _ _ w := (Ok (), w)
|}.
End Console.

(** * Properties *)

(** ** The methods, call by call *)

Ltac run_method :=
  unfold EPoll.register, EPoll.unregister, KQueue.register, KQueue.unregister,
    mbind, M_bind, mret, M_ret, outside, fdmap_setitem, fdmap_delitem;
  cbn [fdmap world trace fst snd].

Section Methods.
Context {Obj W : Type} `{!Platform Obj W}.
Implicit Types (s : state Obj W) (obj : Obj).

Lemma epoll_register_run s obj flags :
  EPoll.register obj flags s =
  match obj_fileno obj (world s) with
  | (Ok fd, w1) =>
      let fl := default EPOLLIN flags in
      (fst (epoll_register fd fl w1),
       {| fdmap := <[fd := obj]> (fdmap s);
          world := snd (epoll_register fd fl w1);
          trace := trace s ++ [Cfileno obj; Cepoll_register fd fl] |})
  | (Raise e, w1) =>
      (Raise e, {| fdmap := fdmap s; world := w1;
                   trace := trace s ++ [Cfileno obj] |})
  end.
Proof.
  run_method. destruct (obj_fileno obj (world s)) as [[fd|e] w1]; [|done].
  cbn. destruct (epoll_register _ _ w1) as [r w2]; cbn.
  by rewrite <- app_assoc.
Qed.

Lemma epoll_unregister_run s obj :
  EPoll.unregister obj s =
  match obj_fileno obj (world s) with
  | (Ok fd, w1) =>
      match fdmap s !! fd with
      | Some _ =>
          (fst (epoll_unregister fd w1),
           {| fdmap := delete fd (fdmap s);
              world := snd (epoll_unregister fd w1);
              trace := trace s ++ [Cfileno obj; Cepoll_unregister fd] |})
      | None =>
          (Raise (KeyError fd),
           {| fdmap := fdmap s; world := w1;
              trace := trace s ++ [Cfileno obj] |})
      end
  | (Raise e, w1) =>
      (Raise e, {| fdmap := fdmap s; world := w1;
                   trace := trace s ++ [Cfileno obj] |})
  end.
Proof.
  run_method. destruct (obj_fileno obj (world s)) as [[fd|e] w1]; [|done].
  cbn. destruct (fdmap s !! fd); [|done].
  cbn. destruct (epoll_unregister _ w1) as [r w2]; cbn.
  by rewrite <- app_assoc.
Qed.

Lemma kqueue_register_run s obj :
  KQueue.register obj s =
  match obj_fileno obj (world s) with
  | (Ok fd, w1) =>
      let r := kqueue_control (Some (add_event fd)) 0 w1 in
      (dropped (fst r),
       {| fdmap := <[fd := obj]> (fdmap s);
          world := snd r;
          trace := trace s ++
            [Cfileno obj; Ckqueue_control (Some (add_event fd)) 0] |})
  | (Raise e, w1) =>
      (Raise e, {| fdmap := fdmap s; world := w1;
                   trace := trace s ++ [Cfileno obj] |})
  end.
Proof.
  run_method. destruct (obj_fileno obj (world s)) as [[fd|e] w1]; [|done].
  cbn. fold (add_event fd).
  destruct (kqueue_control _ 0 w1) as [[r|e] w2]; cbn;
    by rewrite <- app_assoc.
Qed.

Lemma kqueue_unregister_run s obj :
  KQueue.unregister obj s =
  match obj_fileno obj (world s) with
  | (Ok fd, w1) =>
      match fdmap s !! fd with
      | Some _ =>
          let r := kqueue_control (Some (delete_event fd)) 0 w1 in
          (dropped (fst r),
           {| fdmap := delete fd (fdmap s);
              world := snd r;
              trace := trace s ++
                [Cfileno obj; Ckqueue_control (Some (delete_event fd)) 0] |})
      | None =>
          (Raise (KeyError fd),
           {| fdmap := fdmap s; world := w1;
              trace := trace s ++ [Cfileno obj] |})
      end
  | (Raise e, w1) =>
      (Raise e, {| fdmap := fdmap s; world := w1;
                   trace := trace s ++ [Cfileno obj] |})
  end.
Proof.
  run_method. destruct (obj_fileno obj (world s)) as [[fd|e] w1]; [|done].
  cbn. destruct (fdmap s !! fd); [|done].
  cbn. fold (delete_event fd).
  destruct (kqueue_control _ 0 w1) as [[r|e] w2]; cbn;
    by rewrite <- app_assoc.
Qed.
End Methods.

Section Calls.
Context {Obj W : Type} `{!Platform Obj W}.
Implicit Types (s : state Obj W) (obj : Obj).

Lemma new_calls_app s s' calls :
  trace s' = trace s ++ calls → new_calls s s' = calls.
Proof. unfold new_calls. intros ->. by rewrite drop_app_length. Qed.

(** C9.  Each of the four methods calls [obj.fileno()] exactly once: the
    calls it adds to the trace hold one [fileno] call, on [obj].  The
    integer that call returned is the key of the update of [fdmap]
    (insertion for [register], deletion for [unregister]) and the
    descriptor of the one call to the kernel; when that integer is not a
    key, [unregister] changes nothing and calls the kernel not at all, and
    so do all four when [fileno] itself raises. *)
Theorem fileno_called_exactly_once s obj flags :
  let s1 := (EPoll.register obj flags s).2 in
  let s2 := (EPoll.unregister obj s).2 in
  let s3 := (KQueue.register obj s).2 in
  let s4 := (KQueue.unregister obj s).2 in
  Forall (λ s', trace s' = trace s ++ new_calls s s' ∧
                filter is_fileno (new_calls s s') = [Cfileno obj])
         [s1; s2; s3; s4] ∧
  match obj_fileno obj (world s) with
  | (Ok fd, _) =>
      (fdmap s1 = <[fd := obj]> (fdmap s) ∧
       filter is_kernel_call (new_calls s s1) =
         [Cepoll_register fd (default EPOLLIN flags)]) ∧
      (fdmap s3 = <[fd := obj]> (fdmap s) ∧
       filter is_kernel_call (new_calls s s3) =
         [Ckqueue_control (Some (add_event fd)) 0]) ∧
      match fdmap s !! fd with
      | Some _ =>
          (fdmap s2 = delete fd (fdmap s) ∧
           filter is_kernel_call (new_calls s s2) = [Cepoll_unregister fd]) ∧
          (fdmap s4 = delete fd (fdmap s) ∧
           filter is_kernel_call (new_calls s s4) =
             [Ckqueue_control (Some (delete_event fd)) 0])
      | None =>
          Forall (λ s', fdmap s' = fdmap s ∧
                        filter is_kernel_call (new_calls s s') = [])
                 [s2; s4]
      end
  | (Raise _, _) =>
      Forall (λ s', fdmap s' = fdmap s ∧
                    filter is_kernel_call (new_calls s s') = [])
             [s1; s2; s3; s4]
  end.
Proof.
  intros s1 s2 s3 s4. subst s1 s2 s3 s4.
  rewrite epoll_register_run, epoll_unregister_run,
    kqueue_register_run, kqueue_unregister_run.
  destruct (obj_fileno obj (world s)) as [[fd|e] w1];
    [destruct (fdmap s !! fd)|]; cbn [snd fdmap trace];
    repeat first [apply Forall_cons; split | apply Forall_nil | split];
    try reflexivity;
    try (erewrite new_calls_app by reflexivity; reflexivity).
Qed.
End Calls.

Section Interest.
Context {Obj W : Type} `{!Platform Obj W}.
Implicit Types (s : state Obj W) (obj : Obj).

(** C8.  [EPoll.register] has a [flags] parameter: given, it is what the
    add-interest call [poller.register(fd, flags)] receives; left out, the
    call receives [EPOLLIN].  [KQueue.register] has no such parameter (its
    only argument is [obj]) and always submits the change list
    [[kevent(fd, KQ_FILTER_READ, KQ_EV_ADD | KQ_EV_ENABLE)]] with
    [max_events=0].  In all three cases [fd] is what [obj.fileno()]
    returned, and these are the only calls made after it. *)
Theorem register_interest s obj :
  match obj_fileno obj (world s) with
  | (Ok fd, _) =>
      (∀ flags,
         new_calls s (EPoll.register obj (Some flags) s).2 =
           [Cfileno obj; Cepoll_register fd flags]) ∧
      new_calls s (EPoll.register obj None s).2 =
        [Cfileno obj; Cepoll_register fd EPOLLIN] ∧
      new_calls s (KQueue.register obj s).2 =
        [Cfileno obj;
         Ckqueue_control
           (Some [select_kevent fd KQ_FILTER_READ
                    (Z.lor KQ_EV_ADD KQ_EV_ENABLE)]) 0]
  | (Raise _, _) =>
      (∀ flags, new_calls s (EPoll.register obj flags s).2 = [Cfileno obj]) ∧
      new_calls s (KQueue.register obj s).2 = [Cfileno obj]
  end.
Proof.
  pose proof (epoll_register_run s obj) as HE.
  pose proof (kqueue_register_run s obj) as HK.
  destruct (obj_fileno obj (world s)) as [[fd|e] w1];
    repeat split; intros; rewrite ?HE, ?HK; by apply new_calls_app.
Qed.

(** C6, as the code has it.  When the descriptor [obj.fileno()] returns is
    not a key of [fdmap], [unregister(obj)] raises [KeyError] on that
    descriptor, in both classes; [fdmap] is as it was and the only call
    made is [fileno]: nothing goes to the kernel. *)
Theorem unregister_unknown_descriptor s obj fd w1 :
  obj_fileno obj (world s) = (Ok fd, w1) →
  fdmap s !! fd = None →
  let s' := {| fdmap := fdmap s; world := w1;
               trace := trace s ++ [Cfileno obj] |} in
  EPoll.unregister obj s = (Raise (KeyError fd), s') ∧
  KQueue.unregister obj s = (Raise (KeyError fd), s') ∧
  filter is_kernel_call (new_calls s s') = [].
Proof.
  intros Hfd Hnone s'.
  rewrite epoll_unregister_run, kqueue_unregister_run, Hfd, Hnone.
  repeat split. subst s'. by erewrite new_calls_app by reflexivity.
Qed.
End Interest.

(** C6 at work: nothing is registered, and [unregister(A)] fails on A's
    descriptor 5 after the one call of [A.fileno()]. *)
Lemma unregister_unknown_descriptor_witness :
  let s := EPoll.init ([] : Scripted.world) in
  let s' := {| fdmap := ∅; world := []; trace := [Cfileno Scripted.A] |} in
  EPoll.unregister Scripted.A s = (Raise (KeyError 5), s') ∧
  KQueue.unregister Scripted.A s = (Raise (KeyError 5), s') ∧
  filter is_kernel_call (new_calls s s') = [].
Proof.
  exact (unregister_unknown_descriptor
           (EPoll.init ([] : Scripted.world)) Scripted.A 5 []
           eq_refl eq_refl).
Defined.

(** C6 as the claim has it fails: B was never registered, but it reports
    the descriptor under which A is registered, so [unregister(B)] succeeds
    in both classes, removes A's entry and sends the delete-interest call to
    the kernel. *)
Lemma unregister_never_registered_succeeds :
  let w : Scripted.world := [] in
  let s := (EPoll.register Scripted.A None (EPoll.init w)).2 in
  let k := (KQueue.register Scripted.A (KQueue.init w)).2 in
  Scripted.B ≠ Scripted.A ∧
  EPoll.unregister Scripted.B s =
    (Ok (), {| fdmap := ∅; world := [];
               trace := [Cfileno Scripted.A; Cepoll_register 5 1;
                         Cfileno Scripted.B; Cepoll_unregister 5] |}) ∧
  KQueue.unregister Scripted.B k =
    (Ok (), {| fdmap := ∅; world := [];
               trace := [Cfileno Scripted.A;
                         Ckqueue_control (Some [select_kevent 5 (-1) 5]) 0;
                         Cfileno Scripted.B;
                         Ckqueue_control (Some [select_kevent 5 (-1) 2]) 0] |}).
Proof.
  split; [discriminate|].
  rewrite epoll_unregister_run, kqueue_unregister_run,
    epoll_register_run, kqueue_register_run.
  cbn. rewrite !lookup_insert_eq, !delete_insert_eq, !delete_empty. done.
Qed.

(** ** One resumption of a generator *)

Section EPollResume.
Context {Obj W : Type} `{!Platform Obj W}.
Implicit Types (s : state Obj W) (obj : Obj).

(** What a run of the loop can end in, and what it leaves behind. *)
Lemma epoll_while_loop_inv fuel s out g' s' :
  EPoll.while_loop fuel s = (out, g', s') →
  fdmap s' = fdmap s ∧
  (∃ n, trace s' = trace s ++ replicate n Cepoll_poll) ∧
  match out with
  | Yield obj fl =>
      ∃ fd rest w0, g' = Suspended rest ∧ fdmap s !! fd = Some obj ∧
        epoll_poll w0 = (Ok ((fd, fl) :: rest), world s')
  | Raised e => g' = Finished ∧ e ≠ IOError (Some EINTR)
  | StopIteration => False
  | Polling => g' = Running
  end.
Proof.
  revert s. induction fuel as [|fuel IH]; intros s; cbn [EPoll.while_loop].
  { intros [= <- <- <-]. split; [done|]. split; [|done].
    exists O. cbn. by rewrite app_nil_r. }
  unfold EPoll.try_poll, outside.
  destruct (epoll_poll (world s)) as [[evs|e] w1] eqn:Hpoll.
  - destruct evs as [|[fd fl] rest]; cbn [EPoll.for_loop EPoll.except_clause].
    + intros H. apply IH in H as (Hm & [n Ht] & Hout). cbn in Hm, Ht.
      split; [done|]. split; [|done].
      exists (S n). by rewrite Ht, <- app_assoc.
    + unfold fdmap_getitem. cbn [fdmap].
      destruct (fdmap s !! fd) as [obj|] eqn:Hfd; cbn [EPoll.except_clause];
        intros [= <- <- <-]; (split; [done|]); (split; [by exists 1%nat|]).
      * exists fd, rest, (world s). by rewrite Hpoll.
      * done.
  - destruct e as [errno|key|cls]; cbn [EPoll.except_clause].
    + destruct (decide (errno ≠ Some EINTR)) as [Hne|Heq].
      * intros [= <- <- <-]. split; [done|]. split; [by exists 1%nat|].
        split; [done|]. congruence.
      * intros H. apply IH in H as (Hm & [n Ht] & Hout). cbn in Hm, Ht.
        split; [done|]. split; [|done].
        exists (S n). by rewrite Ht, <- app_assoc.
    + intros [= <- <- <-]. split; [done|]. split; [by exists 1%nat|]. done.
    + intros [= <- <- <-]. split; [done|]. split; [by exists 1%nat|]. done.
Qed.

Lemma epoll_resume_inv fuel x g s out g' s' :
  EPoll.resume fuel x g s = (out, g', s') →
  fdmap s' = fdmap s ∧
  (∃ n, trace s' = trace s ++ replicate n Cepoll_poll) ∧
  match out with
  | Yield obj fl =>
      ∃ fd rest, g' = Suspended rest ∧ fdmap s !! fd = Some obj ∧
        (g = Suspended ((fd, fl) :: rest) ∨
         ∃ w0, epoll_poll w0 = (Ok ((fd, fl) :: rest), world s'))
  | Raised e => g' = Finished
  | StopIteration => g = Finished ∧ g' = Finished
  | Polling => g' = Running
  end.
Proof.
  assert (Hloop : EPoll.while_loop fuel s = (out, g', s') →
    fdmap s' = fdmap s ∧
    (∃ n, trace s' = trace s ++ replicate n Cepoll_poll) ∧
    match out with
    | Yield obj fl =>
        ∃ fd rest, g' = Suspended rest ∧ fdmap s !! fd = Some obj ∧
          (g = Suspended ((fd, fl) :: rest) ∨
           ∃ w0, epoll_poll w0 = (Ok ((fd, fl) :: rest), world s'))
    | Raised e => g' = Finished
    | StopIteration => g = Finished ∧ g' = Finished
    | Polling => g' = Running
    end).
  { intros H. apply epoll_while_loop_inv in H as (Hm & Ht & Hout).
    split; [done|]. split; [done|]. destruct out; try done.
    - destruct Hout as (fd & rest & w0 & -> & Hfd & Hp). eauto 10.
    - by destruct Hout. }
  assert (Hstill : ∃ n : nat, trace s = trace s ++ replicate n Cepoll_poll).
  { exists O. cbn. by rewrite app_nil_r. }
  unfold EPoll.resume. destruct g as [|rest| |]; [destruct x| |destruct x|].
  - done.
  - by intros [= <- <- <-].
  - destruct x as [|e].
    + destruct rest as [|[fd fl] rest]; cbn [EPoll.for_loop EPoll.except_clause];
        [done|].
      unfold fdmap_getitem.
      destruct (fdmap s !! fd) as [obj|] eqn:Hfd; cbn [EPoll.except_clause];
        intros [= <- <- <-]; [|done].
      split; [done|]. split; [done|]. exists fd, rest. eauto.
    + destruct e as [errno|key|cls]; cbn [EPoll.except_clause];
        [destruct (decide (errno ≠ Some EINTR)); [|done]|..];
        by intros [= <- <- <-].
  - by intros [= <- <- <-].
  - by intros [= <- <- <-].
  - by intros [= <- <- <-].
Qed.
End EPollResume.

Section KQueueResume.
Context {Obj W : Type} `{!Platform Obj W}.
Implicit Types (s : state Obj W) (obj : Obj).

Lemma kqueue_while_loop_inv fuel s out g' s' :
  KQueue.while_loop fuel s = (out, g', s') →
  fdmap s' = fdmap s ∧
  (∃ n, trace s' = trace s ++ replicate n (Ckqueue_control None 0)) ∧
  match out with
  | Yield obj fl =>
      ∃ ev rest w0, g' = Suspended rest ∧
        fdmap s !! select.ident ev = Some obj ∧ fl = select.flags ev ∧
        kqueue_control None 0 w0 = (Ok (ev :: rest), world s')
  | Raised e => g' = Finished ∧ e ≠ IOError (Some EINTR)
  | StopIteration => False
  | Polling => g' = Running
  end.
Proof.
  revert s. induction fuel as [|fuel IH]; intros s; cbn [KQueue.while_loop].
  { intros [= <- <- <-]. split; [done|]. split; [|done].
    exists O. cbn. by rewrite app_nil_r. }
  unfold KQueue.try_poll, outside.
  destruct (kqueue_control None 0 (world s)) as [[evs|e] w1] eqn:Hpoll.
  - destruct evs as [|ev rest]; cbn [KQueue.for_loop KQueue.except_clause].
    + intros H. apply IH in H as (Hm & [n Ht] & Hout). cbn in Hm, Ht.
      split; [done|]. split; [|done].
      exists (S n). by rewrite Ht, <- app_assoc.
    + unfold fdmap_getitem. cbn [fdmap].
      destruct (fdmap s !! select.ident ev) as [obj|] eqn:Hfd;
        cbn [KQueue.except_clause];
        intros [= <- <- <-]; (split; [done|]); (split; [by exists 1%nat|]).
      * exists ev, rest, (world s). by rewrite Hpoll.
      * done.
  - destruct e as [errno|key|cls]; cbn [KQueue.except_clause].
    + destruct (decide (errno ≠ Some EINTR)) as [Hne|Heq].
      * intros [= <- <- <-]. split; [done|]. split; [by exists 1%nat|].
        split; [done|]. congruence.
      * intros H. apply IH in H as (Hm & [n Ht] & Hout). cbn in Hm, Ht.
        split; [done|]. split; [|done].
        exists (S n). by rewrite Ht, <- app_assoc.
    + intros [= <- <- <-]. split; [done|]. split; [by exists 1%nat|]. done.
    + intros [= <- <- <-]. split; [done|]. split; [by exists 1%nat|]. done.
Qed.

Lemma kqueue_resume_inv fuel x g s out g' s' :
  KQueue.resume fuel x g s = (out, g', s') →
  fdmap s' = fdmap s ∧
  (∃ n, trace s' = trace s ++ replicate n (Ckqueue_control None 0)) ∧
  match out with
  | Yield obj fl =>
      ∃ ev rest, g' = Suspended rest ∧
        fdmap s !! select.ident ev = Some obj ∧ fl = select.flags ev ∧
        (g = Suspended (ev :: rest) ∨
         ∃ w0, kqueue_control None 0 w0 = (Ok (ev :: rest), world s'))
  | Raised e => g' = Finished
  | StopIteration => g = Finished ∧ g' = Finished
  | Polling => g' = Running
  end.
Proof.
  assert (Hloop : KQueue.while_loop fuel s = (out, g', s') →
    fdmap s' = fdmap s ∧
    (∃ n, trace s' = trace s ++ replicate n (Ckqueue_control None 0)) ∧
    match out with
    | Yield obj fl =>
        ∃ ev rest, g' = Suspended rest ∧
          fdmap s !! select.ident ev = Some obj ∧ fl = select.flags ev ∧
          (g = Suspended (ev :: rest) ∨
           ∃ w0, kqueue_control None 0 w0 = (Ok (ev :: rest), world s'))
    | Raised e => g' = Finished
    | StopIteration => g = Finished ∧ g' = Finished
    | Polling => g' = Running
    end).
  { intros H. apply kqueue_while_loop_inv in H as (Hm & Ht & Hout).
    split; [done|]. split; [done|]. destruct out; try done.
    - destruct Hout as (ev & rest & w0 & -> & Hfd & -> & Hp). eauto 10.
    - by destruct Hout. }
  assert (Hstill : ∃ n : nat,
    trace s = trace s ++ replicate n (Ckqueue_control None 0)).
  { exists O. cbn. by rewrite app_nil_r. }
  unfold KQueue.resume. destruct g as [|rest| |]; [destruct x| |destruct x|].
  - done.
  - by intros [= <- <- <-].
  - destruct x as [|e].
    + destruct rest as [|ev rest]; cbn [KQueue.for_loop KQueue.except_clause];
        [done|].
      unfold fdmap_getitem.
      destruct (fdmap s !! select.ident ev) as [obj|] eqn:Hfd;
        cbn [KQueue.except_clause]; intros [= <- <- <-]; [|done].
      split; [done|]. split; [done|]. exists ev, rest. eauto.
    + destruct e as [errno|key|cls]; cbn [KQueue.except_clause];
        [destruct (decide (errno ≠ Some EINTR)); [|done]|..];
        by intros [= <- <- <-].
  - by intros [= <- <- <-].
  - by intros [= <- <- <-].
  - by intros [= <- <- <-].
Qed.
End KQueueResume.

(** ** Interrupted polls, failed polls, failed lookups *)

Section EPollPolls.
Context {Obj W : Type} `{!Platform Obj W}.
Implicit Types (s : state Obj W) (obj : Obj).

(** A generator that is about to poll: fresh, or at the [yield] with the
    polled list used up. *)
Lemma epoll_resume_at_poll fuel s g :
  g = Created ∨ g = Suspended [] →
  EPoll.resume fuel Next g s = EPoll.while_loop fuel s.
Proof. by intros [-> | ->]. Qed.

Lemma epoll_skip_interrupted n fuel m w t w1 :
  epoll_interrupted n w w1 →
  EPoll.while_loop (n + fuel) {| fdmap := m; world := w; trace := t |} =
  EPoll.while_loop fuel
    {| fdmap := m; world := w1; trace := t ++ replicate n Cepoll_poll |}.
Proof.
  intros H. revert t. induction H as [w|n w w1 w' Hpoll _ IH]; intros t.
  - cbn. by rewrite app_nil_r.
  - cbn [Nat.add EPoll.while_loop]. unfold EPoll.try_poll, outside.
    cbn [world fdmap trace]. rewrite Hpoll. cbn [EPoll.except_clause].
    rewrite decide_False by (intros Hne; by apply Hne).
    rewrite IH. cbn [replicate]. by rewrite <- app_assoc.
Qed.

Lemma epoll_poll_yields fuel m w t fd fl rest w2 obj :
  epoll_poll w = (Ok ((fd, fl) :: rest), w2) →
  m !! fd = Some obj →
  EPoll.while_loop (S fuel) {| fdmap := m; world := w; trace := t |} =
  (Yield obj fl, Suspended rest,
   {| fdmap := m; world := w2; trace := t ++ [Cepoll_poll] |}).
Proof.
  intros Hpoll Hfd. cbn [EPoll.while_loop].
  unfold EPoll.try_poll, outside. cbn [world fdmap trace]. rewrite Hpoll.
  cbn [EPoll.for_loop]. unfold fdmap_getitem. cbn [fdmap]. by rewrite Hfd.
Qed.

Lemma epoll_poll_lookup_fails fuel m w t fd fl rest w2 :
  epoll_poll w = (Ok ((fd, fl) :: rest), w2) →
  m !! fd = None →
  EPoll.while_loop (S fuel) {| fdmap := m; world := w; trace := t |} =
  (Raised (KeyError fd), Finished,
   {| fdmap := m; world := w2; trace := t ++ [Cepoll_poll] |}).
Proof.
  intros Hpoll Hfd. cbn [EPoll.while_loop].
  unfold EPoll.try_poll, outside. cbn [world fdmap trace]. rewrite Hpoll.
  cbn [EPoll.for_loop]. unfold fdmap_getitem. cbn [fdmap]. by rewrite Hfd.
Qed.

Lemma epoll_poll_raises fuel m w t e w2 :
  epoll_poll w = (Raise e, w2) →
  e ≠ IOError (Some EINTR) →
  EPoll.while_loop (S fuel) {| fdmap := m; world := w; trace := t |} =
  (Raised e, Finished,
   {| fdmap := m; world := w2; trace := t ++ [Cepoll_poll] |}).
Proof.
  intros Hpoll He. cbn [EPoll.while_loop].
  unfold EPoll.try_poll, outside. cbn [world fdmap trace]. rewrite Hpoll.
  destruct e as [errno|key|cls]; cbn [EPoll.except_clause]; [|done..].
  rewrite decide_True; [done|]. congruence.
Qed.

Lemma epoll_next_not_interrupted fuel g s :
  (EPoll.resume fuel Next g s).1.1 ≠ Raised (IOError (Some EINTR)).
Proof.
  destruct (EPoll.resume fuel Next g s) as [[out g'] s'] eqn:H. cbn.
  intros ->. unfold EPoll.resume in H.
  assert (Hloop : EPoll.while_loop fuel s ≠
                  (Raised (IOError (Some EINTR)), g', s')).
  { intros H'. apply epoll_while_loop_inv in H' as (_ & _ & _ & Hne).
    by apply Hne. }
  destruct g as [|rest| |]; try done.
  destruct rest as [|[fd fl] rest]; cbn [EPoll.for_loop EPoll.except_clause] in H;
    [done|].
  unfold fdmap_getitem in H.
  by destruct (fdmap s !! fd); cbn [EPoll.except_clause] in H.
Qed.
End EPollPolls.

Section KQueuePolls.
Context {Obj W : Type} `{!Platform Obj W}.
Implicit Types (s : state Obj W) (obj : Obj).

Lemma kqueue_resume_at_poll fuel s g :
  g = Created ∨ g = Suspended [] →
  KQueue.resume fuel Next g s = KQueue.while_loop fuel s.
Proof. by intros [-> | ->]. Qed.

Lemma kqueue_skip_interrupted n fuel m w t w1 :
  kqueue_interrupted n w w1 →
  KQueue.while_loop (n + fuel) {| fdmap := m; world := w; trace := t |} =
  KQueue.while_loop fuel
    {| fdmap := m; world := w1;
       trace := t ++ replicate n (Ckqueue_control None 0) |}.
Proof.
  intros H. revert t. induction H as [w|n w w1 w' Hpoll _ IH]; intros t.
  - cbn. by rewrite app_nil_r.
  - cbn [Nat.add KQueue.while_loop]. unfold KQueue.try_poll, outside.
    cbn [world fdmap trace]. rewrite Hpoll. cbn [KQueue.except_clause].
    rewrite decide_False by (intros Hne; by apply Hne).
    rewrite IH. cbn [replicate]. by rewrite <- app_assoc.
Qed.

Lemma kqueue_poll_yields fuel m w t ev rest w2 obj :
  kqueue_control None 0 w = (Ok (ev :: rest), w2) →
  m !! select.ident ev = Some obj →
  KQueue.while_loop (S fuel) {| fdmap := m; world := w; trace := t |} =
  (Yield obj (select.flags ev), Suspended rest,
   {| fdmap := m; world := w2; trace := t ++ [Ckqueue_control None 0] |}).
Proof.
  intros Hpoll Hfd. cbn [KQueue.while_loop].
  unfold KQueue.try_poll, outside. cbn [world fdmap trace]. rewrite Hpoll.
  cbn [KQueue.for_loop]. unfold fdmap_getitem. cbn [fdmap]. by rewrite Hfd.
Qed.

Lemma kqueue_poll_lookup_fails fuel m w t ev rest w2 :
  kqueue_control None 0 w = (Ok (ev :: rest), w2) →
  m !! select.ident ev = None →
  KQueue.while_loop (S fuel) {| fdmap := m; world := w; trace := t |} =
  (Raised (KeyError (select.ident ev)), Finished,
   {| fdmap := m; world := w2; trace := t ++ [Ckqueue_control None 0] |}).
Proof.
  intros Hpoll Hfd. cbn [KQueue.while_loop].
  unfold KQueue.try_poll, outside. cbn [world fdmap trace]. rewrite Hpoll.
  cbn [KQueue.for_loop]. unfold fdmap_getitem. cbn [fdmap]. by rewrite Hfd.
Qed.

Lemma kqueue_poll_raises fuel m w t e w2 :
  kqueue_control None 0 w = (Raise e, w2) →
  e ≠ IOError (Some EINTR) →
  KQueue.while_loop (S fuel) {| fdmap := m; world := w; trace := t |} =
  (Raised e, Finished,
   {| fdmap := m; world := w2; trace := t ++ [Ckqueue_control None 0] |}).
Proof.
  intros Hpoll He. cbn [KQueue.while_loop].
  unfold KQueue.try_poll, outside. cbn [world fdmap trace]. rewrite Hpoll.
  destruct e as [errno|key|cls]; cbn [KQueue.except_clause]; [|done..].
  rewrite decide_True; [done|]. congruence.
Qed.

Lemma kqueue_next_not_interrupted fuel g s :
  (KQueue.resume fuel Next g s).1.1 ≠ Raised (IOError (Some EINTR)).
Proof.
  destruct (KQueue.resume fuel Next g s) as [[out g'] s'] eqn:H. cbn.
  intros ->. unfold KQueue.resume in H.
  assert (Hloop : KQueue.while_loop fuel s ≠
                  (Raised (IOError (Some EINTR)), g', s')).
  { intros H'. apply kqueue_while_loop_inv in H' as (_ & _ & _ & Hne).
    by apply Hne. }
  destruct g as [|rest| |]; try done.
  destruct rest as [|ev rest]; cbn [KQueue.for_loop KQueue.except_clause] in H;
    [done|].
  unfold fdmap_getitem in H.
  by destruct (fdmap s !! select.ident ev); cbn [KQueue.except_clause] in H.
Qed.
End KQueuePolls.

Section Interruption.
Context {Obj W : Type} `{!Platform Obj W}.
Implicit Types (s : state Obj W) (obj : Obj).

(** C2.  In both classes: when the generator is about to poll, the poll
    is interrupted [n] times in a row ([IOError] with [errno == EINTR];
    one injected interruption is [n = 1]) and the next poll reports a
    first event on a descriptor registered for [obj], then [next] polls
    [n + 1] times and yields [obj] with the flags of that event, for every
    budget of more than [n] polls.  No [next] ever raises the
    interruption to the consumer. *)
Theorem events_retry_interrupted_poll :
  (∀ s g n w1 w2 fd fl rest obj fuel,
     g = Created ∨ g = Suspended [] →
     epoll_interrupted n (world s) w1 →
     epoll_poll w1 = (Ok ((fd, fl) :: rest), w2) →
     fdmap s !! fd = Some obj →
     (n < fuel)%nat →
     EPoll.resume fuel Next g s =
       (Yield obj fl, Suspended rest,
        {| fdmap := fdmap s; world := w2;
           trace := trace s ++ replicate (S n) Cepoll_poll |})) ∧
  (∀ s g n w1 w2 ev rest obj fuel,
     g = Created ∨ g = Suspended [] →
     kqueue_interrupted n (world s) w1 →
     kqueue_control None 0 w1 = (Ok (ev :: rest), w2) →
     fdmap s !! select.ident ev = Some obj →
     (n < fuel)%nat →
     KQueue.resume fuel Next g s =
       (Yield obj (select.flags ev), Suspended rest,
        {| fdmap := fdmap s; world := w2;
           trace := trace s ++ replicate (S n) (Ckqueue_control None 0) |})) ∧
  (∀ (s : state Obj W) g fuel,
     (EPoll.resume fuel Next g s).1.1 ≠ Raised (IOError (Some EINTR))) ∧
  (∀ (s : state Obj W) g fuel,
     (KQueue.resume fuel Next g s).1.1 ≠ Raised (IOError (Some EINTR))).
Proof.
  split; [|split; [|split]].
  - intros [m w t] g n w1 w2 fd fl rest obj fuel Hg Hint Hpoll Hfd Hfuel.
    cbn [fdmap world trace] in *.
    rewrite epoll_resume_at_poll by done.
    replace fuel with (n + S (fuel - S n))%nat by lia.
    rewrite (epoll_skip_interrupted _ _ _ _ _ _ Hint).
    rewrite (epoll_poll_yields _ _ _ _ _ _ _ _ _ Hpoll Hfd).
    by rewrite replicate_S_end, app_assoc.
  - intros [m w t] g n w1 w2 ev rest obj fuel Hg Hint Hpoll Hfd Hfuel.
    cbn [fdmap world trace] in *.
    rewrite kqueue_resume_at_poll by done.
    replace fuel with (n + S (fuel - S n))%nat by lia.
    rewrite (kqueue_skip_interrupted _ _ _ _ _ _ Hint).
    rewrite (kqueue_poll_yields _ _ _ _ _ _ _ _ Hpoll Hfd).
    by rewrite replicate_S_end, app_assoc.
  - intros s g fuel. apply epoll_next_not_interrupted.
  - intros s g fuel. apply kqueue_next_not_interrupted.
Qed.

(** C3.  In both classes: an exception of the poll that is not an
    [IOError] with [errno == EINTR] comes out of [next] as it is, after
    that one poll and with the generator finished, also when
    interruptions came first; so does the [KeyError] of the lookup of a
    reported descriptor that is not a key of [fdmap], right after the
    poll or later in the polled list.  A finished generator polls no
    more: [next] raises [StopIteration] and leaves the state as it is. *)
Theorem events_propagate_errors :
  (∀ s g n w1 w2 e fuel,
     g = Created ∨ g = Suspended [] →
     epoll_interrupted n (world s) w1 →
     epoll_poll w1 = (Raise e, w2) →
     e ≠ IOError (Some EINTR) →
     (n < fuel)%nat →
     EPoll.resume fuel Next g s =
       (Raised e, Finished,
        {| fdmap := fdmap s; world := w2;
           trace := trace s ++ replicate (S n) Cepoll_poll |})) ∧
  (∀ s g n w1 w2 fd fl rest fuel,
     g = Created ∨ g = Suspended [] →
     epoll_interrupted n (world s) w1 →
     epoll_poll w1 = (Ok ((fd, fl) :: rest), w2) →
     fdmap s !! fd = None →
     (n < fuel)%nat →
     EPoll.resume fuel Next g s =
       (Raised (KeyError fd), Finished,
        {| fdmap := fdmap s; world := w2;
           trace := trace s ++ replicate (S n) Cepoll_poll |})) ∧
  (∀ s fd fl rest fuel,
     fdmap s !! fd = None →
     EPoll.resume fuel Next (Suspended ((fd, fl) :: rest)) s =
       (Raised (KeyError fd), Finished, s)) ∧
  (∀ s g n w1 w2 e fuel,
     g = Created ∨ g = Suspended [] →
     kqueue_interrupted n (world s) w1 →
     kqueue_control None 0 w1 = (Raise e, w2) →
     e ≠ IOError (Some EINTR) →
     (n < fuel)%nat →
     KQueue.resume fuel Next g s =
       (Raised e, Finished,
        {| fdmap := fdmap s; world := w2;
           trace := trace s ++ replicate (S n) (Ckqueue_control None 0) |})) ∧
  (∀ s g n w1 w2 ev rest fuel,
     g = Created ∨ g = Suspended [] →
     kqueue_interrupted n (world s) w1 →
     kqueue_control None 0 w1 = (Ok (ev :: rest), w2) →
     fdmap s !! select.ident ev = None →
     (n < fuel)%nat →
     KQueue.resume fuel Next g s =
       (Raised (KeyError (select.ident ev)), Finished,
        {| fdmap := fdmap s; world := w2;
           trace := trace s ++ replicate (S n) (Ckqueue_control None 0) |})) ∧
  (∀ s ev rest fuel,
     fdmap s !! select.ident ev = None →
     KQueue.resume fuel Next (Suspended (ev :: rest)) s =
       (Raised (KeyError (select.ident ev)), Finished, s)) ∧
  (∀ (s : state Obj W) fuel,
     EPoll.resume fuel Next Finished s = (StopIteration, Finished, s) ∧
     KQueue.resume fuel Next Finished s = (StopIteration, Finished, s)).
Proof.
  repeat split.
  - intros [m w t] g n w1 w2 e fuel Hg Hint Hpoll He Hfuel.
    cbn [fdmap world trace] in *.
    rewrite epoll_resume_at_poll by done.
    replace fuel with (n + S (fuel - S n))%nat by lia.
    rewrite (epoll_skip_interrupted _ _ _ _ _ _ Hint).
    rewrite (epoll_poll_raises _ _ _ _ _ _ Hpoll He).
    by rewrite replicate_S_end, app_assoc.
  - intros [m w t] g n w1 w2 fd fl rest fuel Hg Hint Hpoll Hfd Hfuel.
    cbn [fdmap world trace] in *.
    rewrite epoll_resume_at_poll by done.
    replace fuel with (n + S (fuel - S n))%nat by lia.
    rewrite (epoll_skip_interrupted _ _ _ _ _ _ Hint).
    rewrite (epoll_poll_lookup_fails _ _ _ _ _ _ _ _ Hpoll Hfd).
    by rewrite replicate_S_end, app_assoc.
  - intros s fd fl rest fuel Hfd. cbn. unfold fdmap_getitem.
    by rewrite Hfd.
  - intros [m w t] g n w1 w2 e fuel Hg Hint Hpoll He Hfuel.
    cbn [fdmap world trace] in *.
    rewrite kqueue_resume_at_poll by done.
    replace fuel with (n + S (fuel - S n))%nat by lia.
    rewrite (kqueue_skip_interrupted _ _ _ _ _ _ Hint).
    rewrite (kqueue_poll_raises _ _ _ _ _ _ Hpoll He).
    by rewrite replicate_S_end, app_assoc.
  - intros [m w t] g n w1 w2 ev rest fuel Hg Hint Hpoll Hfd Hfuel.
    cbn [fdmap world trace] in *.
    rewrite kqueue_resume_at_poll by done.
    replace fuel with (n + S (fuel - S n))%nat by lia.
    rewrite (kqueue_skip_interrupted _ _ _ _ _ _ Hint).
    rewrite (kqueue_poll_lookup_fails _ _ _ _ _ _ _ Hpoll Hfd).
    by rewrite replicate_S_end, app_assoc.
  - intros s ev rest fuel Hfd. cbn. unfold fdmap_getitem.
    by rewrite Hfd.
Qed.
End Interruption.

(** C2 at work: A is registered on descriptor 5; the first poll is
    interrupted, the second reports descriptor 5 readable; the first [next]
    yields [(A, 1)] after two polls. *)
Lemma events_retry_interrupted_poll_witness :
  let w : Scripted.world := [Raise (IOError (Some 4)); Ok [(5, 1)]] in
  let s := (EPoll.register Scripted.A None (EPoll.init w)).2 in
  let k := (KQueue.register Scripted.A (KQueue.init w)).2 in
  EPoll.resume 2 Next EPoll.events s =
    (Yield Scripted.A 1, Suspended [],
     {| fdmap := fdmap s; world := [];
        trace := trace s ++ [Cepoll_poll; Cepoll_poll] |}) ∧
  KQueue.resume 2 Next KQueue.events k =
    (Yield Scripted.A 1, Suspended [],
     {| fdmap := fdmap k; world := [];
        trace := trace k ++
          [Ckqueue_control None 0; Ckqueue_control None 0] |}).
Proof.
  intros w s k. split.
  - apply (proj1 events_retry_interrupted_poll
             s Created 1%nat [Ok [(5, 1)]] [] 5 1 [] Scripted.A 2%nat).
    + by left.
    + eapply epoll_interrupted_S; [reflexivity | constructor].
    + reflexivity.
    + reflexivity.
    + repeat constructor.
  - apply (proj1 (proj2 events_retry_interrupted_poll)
             k Created 1%nat [Ok [(5, 1)]] [] (select_kevent 5 (-1) 1) []
             Scripted.A 2%nat).
    + by left.
    + eapply kqueue_interrupted_S; [reflexivity | constructor].
    + reflexivity.
    + reflexivity.
    + repeat constructor.
Defined.

(** C3 at work: A is registered on descriptor 5; a poll that fails with
    [EBADF] (errno 9) ends the generator with that error after the one poll,
    and a poll that reports descriptor 7, which nobody registered, ends it
    with [KeyError(7)]. *)
Lemma events_propagate_errors_witness :
  let bad : Scripted.world := [Raise (IOError (Some 9)); Ok [(5, 1)]] in
  let stale : Scripted.world := [Ok [(7, 1)]] in
  let s w := (EPoll.register Scripted.A None (EPoll.init w)).2 in
  let k w := (KQueue.register Scripted.A (KQueue.init w)).2 in
  EPoll.resume 1 Next EPoll.events (s bad) =
    (Raised (IOError (Some 9)), Finished,
     {| fdmap := fdmap (s bad); world := [Ok [(5, 1)]];
        trace := trace (s bad) ++ [Cepoll_poll] |}) ∧
  EPoll.resume 1 Next EPoll.events (s stale) =
    (Raised (KeyError 7), Finished,
     {| fdmap := fdmap (s stale); world := [];
        trace := trace (s stale) ++ [Cepoll_poll] |}) ∧
  KQueue.resume 1 Next KQueue.events (k bad) =
    (Raised (IOError (Some 9)), Finished,
     {| fdmap := fdmap (k bad); world := [Ok [(5, 1)]];
        trace := trace (k bad) ++ [Ckqueue_control None 0] |}) ∧
  KQueue.resume 1 Next KQueue.events (k stale) =
    (Raised (KeyError 7), Finished,
     {| fdmap := fdmap (k stale); world := [];
        trace := trace (k stale) ++ [Ckqueue_control None 0] |}).
Proof.
  intros bad stale s k.
  pose proof events_propagate_errors
    as (He & Hl & _ & Hke & Hkl & _).
  split; [|split; [|split]].
  - apply (He (s bad) Created O bad [Ok [(5, 1)]] (IOError (Some 9)) 1%nat);
      [by left | constructor | reflexivity | discriminate | repeat constructor].
  - apply (Hl (s stale) Created O stale [] 7 1 [] 1%nat);
      [by left | constructor | reflexivity | reflexivity | repeat constructor].
  - apply (Hke (k bad) Created O bad [Ok [(5, 1)]] (IOError (Some 9)) 1%nat);
      [by left | constructor | reflexivity | discriminate | repeat constructor].
  - apply (Hkl (k stale) Created O stale [] (select_kevent 7 (-1) 1) [] 1%nat);
      [by left | constructor | reflexivity | reflexivity | repeat constructor].
Defined.

(** ** Sessions *)

Section EPollSessions.
Context {Obj W : Type} `{!Platform Obj W}.
Implicit Types (s : state Obj W) (obj : Obj) (g : frame (Z * Z)).
Implicit Types (acts : list (@EPoll.action Obj)).

Lemma epoll_session_resume fuel x acts g s :
  EPoll.session fuel (EPoll.Resume x :: acts) g s =
  let r := EPoll.resume fuel x g s in
  let r' := EPoll.session fuel acts r.1.2 r.2 in
  (r.1.1 :: r'.1.1, r'.1.2, r'.2).
Proof.
  cbn [EPoll.session]. destruct (EPoll.resume fuel x g s) as [[out g'] s'].
  cbn [fst snd].
  by destruct (EPoll.session fuel acts g' s') as [[outs g''] s''].
Qed.

Lemma epoll_session_app fuel acts1 acts2 g s :
  EPoll.session fuel (acts1 ++ acts2) g s =
  let r := EPoll.session fuel acts1 g s in
  let r' := EPoll.session fuel acts2 r.1.2 r.2 in
  (r.1.1 ++ r'.1.1, r'.1.2, r'.2).
Proof.
  revert g s. induction acts1 as [|[obj fl|obj|x] acts1 IH]; intros g s.
  - cbn. by destruct (EPoll.session fuel acts2 g s) as [[??]?].
  - cbn [app EPoll.session]. apply IH.
  - cbn [app EPoll.session]. apply IH.
  - cbn [app]. rewrite !epoll_session_resume. cbn zeta. by rewrite IH.
Qed.

Lemma epoll_resume_fdmap fuel x g s :
  fdmap (EPoll.resume fuel x g s).2 = fdmap s.
Proof.
  destruct (EPoll.resume fuel x g s) as [[out g'] s'] eqn:H.
  by apply epoll_resume_inv in H as [? _].
Qed.

Lemma epoll_resume_yield fuel x g s obj fl :
  (EPoll.resume fuel x g s).1.1 = Yield obj fl →
  ∃ fd, fdmap s !! fd = Some obj.
Proof.
  destruct (EPoll.resume fuel x g s) as [[out g'] s'] eqn:H. cbn.
  intros ->. apply epoll_resume_inv in H as (_ & _ & fd & ? & ? & ? & ?).
  eauto.
Qed.

(** An object that is in no entry of the map and is not registered again
    is never yielded. *)
Lemma epoll_session_absent fuel acts g s obj :
  (∀ fl, EPoll.Register obj fl ∉ acts) →
  (∀ fd, fdmap s !! fd ≠ Some obj) →
  ∀ fl, Yield obj fl ∉ (EPoll.session fuel acts g s).1.1.
Proof.
  revert g s. induction acts as [|[obj' fl'|obj'|x] acts IH];
    intros g s Hacts Habs fl.
  - cbn. apply not_elem_of_nil.
  - cbn [EPoll.session]. apply IH.
    + intros fl0 Hin. apply (Hacts fl0). by right.
    + assert (obj' ≠ obj) as Hne.
      { intros ->. apply (Hacts fl'). by left. }
      intros fd. rewrite epoll_register_run.
      destruct (obj_fileno obj' (world s)) as [[fd'|e] w1]; cbn; [|done].
      rewrite lookup_insert. case_decide; [congruence|done].
  - cbn [EPoll.session]. apply IH.
    + intros fl0 Hin. apply (Hacts fl0). by right.
    + intros fd. rewrite epoll_unregister_run.
      destruct (obj_fileno obj' (world s)) as [[fd'|e] w1]; cbn; [|done].
      destruct (fdmap s !! fd') eqn:Hfd'; cbn; [|done].
      rewrite lookup_delete. case_decide; [done|done].
  - rewrite epoll_session_resume. cbn. intros [Hout|Hin]%elem_of_cons.
    + symmetry in Hout. apply epoll_resume_yield in Hout as [fd Hfd].
      by apply (Habs fd).
    + revert Hin. apply IH.
      * intros fl0 Hin. apply (Hacts fl0). by right.
      * intros fd. by rewrite epoll_resume_fdmap.
Qed.

Section Stable.
Variable fd_of : Obj → Z.
Hypothesis Hstable : stable_fileno fd_of.

Lemma epoll_register_fdmap s obj fl :
  fdmap (EPoll.register obj fl s).2 = <[fd_of obj := obj]> (fdmap s).
Proof.
  rewrite epoll_register_run. pose proof (Hstable obj (world s)) as H.
  destruct (obj_fileno obj (world s)) as [[fd|e] w1]; cbn in *; congruence.
Qed.

Lemma epoll_unregister_fdmap s obj :
  fdmap (EPoll.unregister obj s).2 = delete (fd_of obj) (fdmap s).
Proof.
  rewrite epoll_unregister_run. pose proof (Hstable obj (world s)) as H.
  destruct (obj_fileno obj (world s)) as [[fd|e] w1]; cbn in *; [|done].
  injection H as ->.
  destruct (fdmap s !! fd_of obj) eqn:Hfd; cbn; [done|].
  symmetry. by apply delete_id.
Qed.

Lemma epoll_session_keyed fuel acts g s :
  keyed fd_of (fdmap s) →
  keyed fd_of (fdmap (EPoll.session fuel acts g s).2).
Proof.
  revert g s. induction acts as [|[obj fl|obj|x] acts IH]; intros g s Hk.
  - done.
  - cbn [EPoll.session]. apply IH. rewrite epoll_register_fdmap.
    intros fd o. rewrite lookup_insert. case_decide; [|by apply Hk].
    by intros [= <-].
  - cbn [EPoll.session]. apply IH. rewrite epoll_unregister_fdmap.
    intros fd o. rewrite lookup_delete. case_decide; [done|by apply Hk].
  - rewrite epoll_session_resume. cbn. apply IH.
    by rewrite epoll_resume_fdmap.
Qed.

Lemma epoll_session_latest fuel acts g s (found : Z → option Obj) :
  (∀ fd obj, fdmap s !! fd = Some obj → found fd = Some obj) →
  ∀ fd obj, fdmap (EPoll.session fuel acts g s).2 !! fd = Some obj →
            epoll_latest fd_of fd acts (found fd) = Some obj.
Proof.
  revert g s found.
  induction acts as [|[obj' fl|obj'|x] acts IH]; intros g s found Hf fd obj.
  - apply Hf.
  - cbn [EPoll.session epoll_latest].
    pose (found' := λ k : Z, if decide (fd_of obj' = k) then Some obj'
                             else found k).
    apply (IH g _ found').
    intros fd0 o. rewrite epoll_register_fdmap, lookup_insert.
    unfold found'. case_decide; [done|apply Hf].
  - cbn [EPoll.session epoll_latest]. apply (IH g _ found).
    intros fd0 o. rewrite epoll_unregister_fdmap, lookup_delete.
    case_decide; [done|apply Hf].
  - rewrite epoll_session_resume. cbn [epoll_latest snd]. cbn zeta.
    apply (IH _ _ found). intros fd0 o. rewrite epoll_resume_fdmap.
    apply Hf.
Qed.
End Stable.
End EPollSessions.

Section KQueueSessions.
Context {Obj W : Type} `{!Platform Obj W}.
Implicit Types (s : state Obj W) (obj : Obj) (g : frame kevent).
Implicit Types (acts : list (@KQueue.action Obj)).

Lemma kqueue_session_resume fuel x acts g s :
  KQueue.session fuel (KQueue.Resume x :: acts) g s =
  let r := KQueue.resume fuel x g s in
  let r' := KQueue.session fuel acts r.1.2 r.2 in
  (r.1.1 :: r'.1.1, r'.1.2, r'.2).
Proof.
  cbn [KQueue.session].
  destruct (KQueue.resume fuel x g s) as [[out g'] s']. cbn [fst snd].
  by destruct (KQueue.session fuel acts g' s') as [[outs g''] s''].
Qed.

Lemma kqueue_session_app fuel acts1 acts2 g s :
  KQueue.session fuel (acts1 ++ acts2) g s =
  let r := KQueue.session fuel acts1 g s in
  let r' := KQueue.session fuel acts2 r.1.2 r.2 in
  (r.1.1 ++ r'.1.1, r'.1.2, r'.2).
Proof.
  revert g s. induction acts1 as [|[obj|obj|x] acts1 IH]; intros g s.
  - cbn. by destruct (KQueue.session fuel acts2 g s) as [[??]?].
  - cbn [app KQueue.session]. apply IH.
  - cbn [app KQueue.session]. apply IH.
  - cbn [app]. rewrite !kqueue_session_resume. cbn zeta. by rewrite IH.
Qed.

Lemma kqueue_resume_fdmap fuel x g s :
  fdmap (KQueue.resume fuel x g s).2 = fdmap s.
Proof.
  destruct (KQueue.resume fuel x g s) as [[out g'] s'] eqn:H.
  by apply kqueue_resume_inv in H as [? _].
Qed.

Lemma kqueue_resume_yield fuel x g s obj fl :
  (KQueue.resume fuel x g s).1.1 = Yield obj fl →
  ∃ fd, fdmap s !! fd = Some obj.
Proof.
  destruct (KQueue.resume fuel x g s) as [[out g'] s'] eqn:H. cbn.
  intros ->. apply kqueue_resume_inv in H as (_ & _ & ev & ? & ? & ? & ?).
  eauto.
Qed.

Lemma kqueue_session_absent fuel acts g s obj :
  KQueue.Register obj ∉ acts →
  (∀ fd, fdmap s !! fd ≠ Some obj) →
  ∀ fl, Yield obj fl ∉ (KQueue.session fuel acts g s).1.1.
Proof.
  revert g s. induction acts as [|[obj'|obj'|x] acts IH];
    intros g s Hacts Habs fl.
  - cbn. apply not_elem_of_nil.
  - cbn [KQueue.session]. apply IH.
    + intros Hin. apply Hacts. by right.
    + assert (obj' ≠ obj) as Hne.
      { intros ->. apply Hacts. by left. }
      intros fd. rewrite kqueue_register_run.
      destruct (obj_fileno obj' (world s)) as [[fd'|e] w1]; cbn; [|done].
      rewrite lookup_insert. case_decide; [congruence|done].
  - cbn [KQueue.session]. apply IH.
    + intros Hin. apply Hacts. by right.
    + intros fd. rewrite kqueue_unregister_run.
      destruct (obj_fileno obj' (world s)) as [[fd'|e] w1]; cbn; [|done].
      destruct (fdmap s !! fd') eqn:Hfd'; cbn; [|done].
      rewrite lookup_delete. case_decide; [done|done].
  - rewrite kqueue_session_resume. cbn. intros [Hout|Hin]%elem_of_cons.
    + symmetry in Hout. apply kqueue_resume_yield in Hout as [fd Hfd].
      by apply (Habs fd).
    + revert Hin. apply IH.
      * intros Hin. apply Hacts. by right.
      * intros fd. by rewrite kqueue_resume_fdmap.
Qed.

Section Stable.
Variable fd_of : Obj → Z.
Hypothesis Hstable : stable_fileno fd_of.

Lemma kqueue_register_fdmap s obj :
  fdmap (KQueue.register obj s).2 = <[fd_of obj := obj]> (fdmap s).
Proof.
  rewrite kqueue_register_run. pose proof (Hstable obj (world s)) as H.
  destruct (obj_fileno obj (world s)) as [[fd|e] w1]; cbn in *; congruence.
Qed.

Lemma kqueue_unregister_fdmap s obj :
  fdmap (KQueue.unregister obj s).2 = delete (fd_of obj) (fdmap s).
Proof.
  rewrite kqueue_unregister_run. pose proof (Hstable obj (world s)) as H.
  destruct (obj_fileno obj (world s)) as [[fd|e] w1]; cbn in *; [|done].
  injection H as ->.
  destruct (fdmap s !! fd_of obj) eqn:Hfd; cbn; [done|].
  symmetry. by apply delete_id.
Qed.

Lemma kqueue_session_keyed fuel acts g s :
  keyed fd_of (fdmap s) →
  keyed fd_of (fdmap (KQueue.session fuel acts g s).2).
Proof.
  revert g s. induction acts as [|[obj|obj|x] acts IH]; intros g s Hk.
  - done.
  - cbn [KQueue.session]. apply IH. rewrite kqueue_register_fdmap.
    intros fd o. rewrite lookup_insert. case_decide; [|by apply Hk].
    by intros [= <-].
  - cbn [KQueue.session]. apply IH. rewrite kqueue_unregister_fdmap.
    intros fd o. rewrite lookup_delete. case_decide; [done|by apply Hk].
  - rewrite kqueue_session_resume. cbn. apply IH.
    by rewrite kqueue_resume_fdmap.
Qed.

Lemma kqueue_session_latest fuel acts g s (found : Z → option Obj) :
  (∀ fd obj, fdmap s !! fd = Some obj → found fd = Some obj) →
  ∀ fd obj, fdmap (KQueue.session fuel acts g s).2 !! fd = Some obj →
            kqueue_latest fd_of fd acts (found fd) = Some obj.
Proof.
  revert g s found.
  induction acts as [|[obj'|obj'|x] acts IH]; intros g s found Hf fd obj.
  - apply Hf.
  - cbn [KQueue.session kqueue_latest].
    pose (found' := λ k : Z, if decide (fd_of obj' = k) then Some obj'
                             else found k).
    apply (IH g _ found').
    intros fd0 o. rewrite kqueue_register_fdmap, lookup_insert.
    unfold found'. case_decide; [done|apply Hf].
  - cbn [KQueue.session kqueue_latest]. apply (IH g _ found).
    intros fd0 o. rewrite kqueue_unregister_fdmap, lookup_delete.
    case_decide; [done|apply Hf].
  - rewrite kqueue_session_resume. cbn [kqueue_latest snd]. cbn zeta.
    apply (IH _ _ found). intros fd0 o. rewrite kqueue_resume_fdmap.
    apply Hf.
Qed.
End Stable.
End KQueueSessions.

Section Registrations.
Context {Obj W : Type} `{!Platform Obj W}.
Implicit Types (s : state Obj W) (obj : Obj).
Variable fd_of : Obj → Z.
Hypothesis Hstable : stable_fileno fd_of.

Lemma epoll_session_registered fuel acts g s (now : Z → option Obj) :
  (∀ fd, fdmap s !! fd = now fd) →
  ∀ fd, fdmap (EPoll.session fuel acts g s).2 !! fd =
        epoll_registered fd_of fd acts (now fd).
Proof.
  revert g s now.
  induction acts as [|[obj fl|obj|x] acts IH]; intros g s now Hnow fd.
  - apply Hnow.
  - cbn [EPoll.session epoll_registered].
    pose (now' := λ k : Z, if decide (fd_of obj = k) then Some obj
                           else now k).
    apply (IH g _ now'). intros k.
    rewrite (epoll_register_fdmap fd_of Hstable), lookup_insert.
    unfold now'. case_decide; [done|apply Hnow].
  - cbn [EPoll.session epoll_registered].
    pose (now' := λ k : Z, if decide (fd_of obj = k) then None else now k).
    apply (IH g _ now'). intros k.
    rewrite (epoll_unregister_fdmap fd_of Hstable), lookup_delete.
    unfold now'. case_decide; [done|apply Hnow].
  - rewrite epoll_session_resume. cbn [epoll_registered snd]. cbn zeta.
    apply (IH _ _ now). intros k. rewrite epoll_resume_fdmap. apply Hnow.
Qed.

Lemma kqueue_session_registered fuel acts g s (now : Z → option Obj) :
  (∀ fd, fdmap s !! fd = now fd) →
  ∀ fd, fdmap (KQueue.session fuel acts g s).2 !! fd =
        kqueue_registered fd_of fd acts (now fd).
Proof.
  revert g s now.
  induction acts as [|[obj|obj|x] acts IH]; intros g s now Hnow fd.
  - apply Hnow.
  - cbn [KQueue.session kqueue_registered].
    pose (now' := λ k : Z, if decide (fd_of obj = k) then Some obj
                           else now k).
    apply (IH g _ now'). intros k.
    rewrite (kqueue_register_fdmap fd_of Hstable), lookup_insert.
    unfold now'. case_decide; [done|apply Hnow].
  - cbn [KQueue.session kqueue_registered].
    pose (now' := λ k : Z, if decide (fd_of obj = k) then None else now k).
    apply (IH g _ now'). intros k.
    rewrite (kqueue_unregister_fdmap fd_of Hstable), lookup_delete.
    unfold now'. case_decide; [done|apply Hnow].
  - rewrite kqueue_session_resume. cbn [kqueue_registered snd]. cbn zeta.
    apply (IH _ _ now). intros k. rewrite kqueue_resume_fdmap. apply Hnow.
Qed.
End Registrations.

Section Resolution.
Context {Obj W : Type} `{!Platform Obj W}.
Implicit Types (s : state Obj W) (obj : Obj).

(** C1.  Let objects report stable descriptors, and take any poller after
    any sequence of [register], [unregister] and generator calls on a
    fresh instance.

    - [register(obj)] stores [obj] in [fdmap] under [obj]'s descriptor,
      over whatever was there.
    - [fdmap[fd]] is the object of the most recent [register] call on an
      object with descriptor [fd], and there is no entry for [fd] when
      there was no such call or an [unregister] call on that descriptor
      came after it.
    - When [fdmap[fd]] is [obj] and [(fd, flags)] fires, [obj] is yielded
      with [flags]: by the next [next] when [(fd, flags)] is the next
      event of the polled list the generator is in, and by a [next] that
      has to poll when the poll (after any number of interrupted ones, and
      with a budget of more polls than those) reports [(fd, flags)] first;
      what follows it in the list is kept for the next [next].
    - Whenever a generator of [events()] yields a pair [(obj, flags)],
      there is a descriptor [fd] such that [(fd, flags)] is the event the
      [for] loop is at (the head of what the generator had left of the
      polled list, or of the list a poll just returned), [obj] is
      [fdmap[fd]], and [obj] is the object of the most recent [register]
      call on an object with descriptor [fd]. *)
Theorem events_yield_latest_registered (fd_of : Obj → Z) :
  stable_fileno fd_of →
  (∀ w fuel acts g0,
     let s := (EPoll.session fuel acts g0 (EPoll.init w)).2 in
     (∀ obj flags,
        fdmap (EPoll.register obj flags s).2 =
          <[fd_of obj := obj]> (fdmap s)) ∧
     (∀ fd, fdmap s !! fd = epoll_registered fd_of fd acts None) ∧
     (∀ fd obj fl rest,
        fdmap s !! fd = Some obj →
        (∀ fuel',
           EPoll.resume fuel' Next (Suspended ((fd, fl) :: rest)) s =
             (Yield obj fl, Suspended rest, s)) ∧
        (∀ fuel' g n w1 w2,
           g = Created ∨ g = Suspended [] →
           epoll_interrupted n (world s) w1 →
           epoll_poll w1 = (Ok ((fd, fl) :: rest), w2) →
           (n < fuel')%nat →
           EPoll.resume fuel' Next g s =
             (Yield obj fl, Suspended rest,
              {| fdmap := fdmap s; world := w2;
                 trace := trace s ++ replicate (S n) Cepoll_poll |}))) ∧
     (∀ fuel' x g obj fl g' s',
        EPoll.resume fuel' x g s = (Yield obj fl, g', s') →
        ∃ fd rest,
          fdmap s !! fd = Some obj ∧
          epoll_latest fd_of fd acts None = Some obj ∧
          g' = Suspended rest ∧
          (g = Suspended ((fd, fl) :: rest) ∨
           ∃ w0, epoll_poll w0 = (Ok ((fd, fl) :: rest), world s')))) ∧
  (∀ w fuel acts g0,
     let s := (KQueue.session fuel acts g0 (KQueue.init w)).2 in
     (∀ obj,
        fdmap (KQueue.register obj s).2 = <[fd_of obj := obj]> (fdmap s)) ∧
     (∀ fd, fdmap s !! fd = kqueue_registered fd_of fd acts None) ∧
     (∀ ev obj rest,
        fdmap s !! select.ident ev = Some obj →
        (∀ fuel',
           KQueue.resume fuel' Next (Suspended (ev :: rest)) s =
             (Yield obj (select.flags ev), Suspended rest, s)) ∧
        (∀ fuel' g n w1 w2,
           g = Created ∨ g = Suspended [] →
           kqueue_interrupted n (world s) w1 →
           kqueue_control None 0 w1 = (Ok (ev :: rest), w2) →
           (n < fuel')%nat →
           KQueue.resume fuel' Next g s =
             (Yield obj (select.flags ev), Suspended rest,
              {| fdmap := fdmap s; world := w2;
                 trace := trace s ++
                   replicate (S n) (Ckqueue_control None 0) |}))) ∧
     (∀ fuel' x g obj fl g' s',
        KQueue.resume fuel' x g s = (Yield obj fl, g', s') →
        ∃ ev rest,
          fdmap s !! select.ident ev = Some obj ∧
          fl = select.flags ev ∧
          kqueue_latest fd_of (select.ident ev) acts None = Some obj ∧
          g' = Suspended rest ∧
          (g = Suspended (ev :: rest) ∨
           ∃ w0, kqueue_control None 0 w0 = (Ok (ev :: rest), world s')))).
Proof.
  intros Hstable. split; intros w fuel acts g0 s;
    (split; [|split; [|split]]).
  - intros obj flags. by apply epoll_register_fdmap.
  - apply (epoll_session_registered fd_of Hstable fuel acts g0 (EPoll.init w)
             (λ _, None)).
    intros fd. cbn. apply lookup_empty.
  - intros fd obj fl rest Hfd. split.
    + intros fuel'. cbn [EPoll.resume EPoll.for_loop].
      unfold fdmap_getitem. by rewrite Hfd.
    + intros fuel' g n w1 w2 Hg Hint Hpoll Hfuel.
      rewrite epoll_resume_at_poll by done.
      destruct s as [m w0 t]. cbn [fdmap world trace] in *.
      replace fuel' with (n + S (fuel' - S n))%nat by lia.
      rewrite (epoll_skip_interrupted _ _ _ _ _ _ Hint).
      rewrite (epoll_poll_yields _ _ _ _ _ _ _ _ _ Hpoll Hfd).
      by rewrite replicate_S_end, app_assoc.
  - intros fuel' x g obj fl g' s' Hres.
    apply epoll_resume_inv in Hres
      as (_ & _ & fd & rest & -> & Hfd & Hfired).
    exists fd, rest. split; [done|]. split; [|done].
    eapply (epoll_session_latest fd_of Hstable fuel acts g0 (EPoll.init w)
              (λ _, None)); [|exact Hfd].
    intros fd0 o. cbn. by rewrite lookup_empty.
  - intros obj. by apply kqueue_register_fdmap.
  - apply (kqueue_session_registered fd_of Hstable fuel acts g0
             (KQueue.init w) (λ _, None)).
    intros fd. cbn. apply lookup_empty.
  - intros ev obj rest Hfd. split.
    + intros fuel'. cbn [KQueue.resume KQueue.for_loop].
      unfold fdmap_getitem. by rewrite Hfd.
    + intros fuel' g n w1 w2 Hg Hint Hpoll Hfuel.
      rewrite kqueue_resume_at_poll by done.
      destruct s as [m w0 t]. cbn [fdmap world trace] in *.
      replace fuel' with (n + S (fuel' - S n))%nat by lia.
      rewrite (kqueue_skip_interrupted _ _ _ _ _ _ Hint).
      rewrite (kqueue_poll_yields _ _ _ _ _ _ _ _ Hpoll Hfd).
      by rewrite replicate_S_end, app_assoc.
  - intros fuel' x g obj fl g' s' Hres.
    apply kqueue_resume_inv in Hres
      as (_ & _ & ev & rest & -> & Hfd & -> & Hfired).
    exists ev, rest. split; [done|]. split; [done|]. split; [|done].
    eapply (kqueue_session_latest fd_of Hstable fuel acts g0 (KQueue.init w)
              (λ _, None)); [|exact Hfd].
    intros fd0 o. cbn. by rewrite lookup_empty.
Qed.

(** C4.  Let objects report stable descriptors.  After any sequence of
    calls on a fresh poller that ends in [unregister(obj)] -- in
    particular after [register(obj)] followed at once by
    [unregister(obj)] -- no generator, whatever it has left of a polled
    list, yields [obj] in any continuation that does not register [obj]
    again: not when [obj]'s descriptor is reported ready, and not when
    another object has been registered under that descriptor since. *)
Theorem unregistered_object_never_yielded (fd_of : Obj → Z) :
  stable_fileno fd_of →
  (∀ w fuel1 fuel2 before after g0 g obj,
     (∀ flags, EPoll.Register obj flags ∉ after) →
     let s := (EPoll.session fuel1 (before ++ [EPoll.Unregister obj]) g0
                 (EPoll.init w)).2 in
     ∀ fl, Yield obj fl ∉ (EPoll.session fuel2 after g s).1.1) ∧
  (∀ w fuel1 fuel2 before after g0 g obj,
     KQueue.Register obj ∉ after →
     let s := (KQueue.session fuel1 (before ++ [KQueue.Unregister obj]) g0
                 (KQueue.init w)).2 in
     ∀ fl, Yield obj fl ∉ (KQueue.session fuel2 after g s).1.1).
Proof.
  intros Hstable.
  split; intros w fuel1 fuel2 before after g0 g obj Hafter s.
  - apply epoll_session_absent; [done|]. intros fd. subst s.
    rewrite epoll_session_app. cbn.
    rewrite (epoll_unregister_fdmap fd_of Hstable), lookup_delete.
    case_decide as Hfd; [done|]. intros Hin. apply Hfd.
    eapply (epoll_session_keyed fd_of Hstable); [|exact Hin].
    intros fd0 o. cbn. by rewrite lookup_empty.
  - apply kqueue_session_absent; [done|]. intros fd. subst s.
    rewrite kqueue_session_app. cbn.
    rewrite (kqueue_unregister_fdmap fd_of Hstable), lookup_delete.
    case_decide as Hfd; [done|]. intros Hin. apply Hfd.
    eapply (kqueue_session_keyed fd_of Hstable); [|exact Hin].
    intros fd0 o. cbn. by rewrite lookup_empty.
Qed.
End Resolution.

(** The objects of the scripted platform report the descriptor they were
    made with. *)
Lemma scripted_fileno_stable : stable_fileno Scripted.fd.
Proof. intros obj w. reflexivity. Qed.

(** C1 at work: A and then B are registered, both on descriptor 5, and C on
    descriptor 7.  The map holds B under 5, the later of the two.  The poll
    reports descriptors 5 and 7: the first [next] yields B, the second C;
    and what the first one yields is the latest registered object. *)
Lemma events_yield_latest_registered_witness :
  let w : Scripted.world := [Ok [(5, 1); (7, 4)]] in
  let acts := [EPoll.Register Scripted.A None;
               EPoll.Register Scripted.B (Some 1);
               EPoll.Register Scripted.C None] in
  let s := (EPoll.session 1 acts Created (EPoll.init w)).2 in
  let s' := {| fdmap := fdmap s; world := [];
               trace := trace s ++ [Cepoll_poll] |} in
  fdmap s !! 5 = Some Scripted.B ∧
  EPoll.resume 1 Next EPoll.events s =
    (Yield Scripted.B 1, Suspended [(7, 4)], s') ∧
  EPoll.resume 1 Next (Suspended [(7, 4)]) s' =
    (Yield Scripted.C 4, Suspended [], s') ∧
  ∃ fd rest,
    fdmap s !! fd = Some Scripted.B ∧
    epoll_latest Scripted.fd fd acts None = Some Scripted.B ∧
    Suspended [(7, 4)] = Suspended rest ∧
    (EPoll.events = Suspended ((fd, 1) :: rest) ∨
     ∃ w0, epoll_poll w0 = (Ok ((fd, 1) :: rest), [])).
Proof.
  intros w acts s s'.
  destruct (proj1 (events_yield_latest_registered
                     Scripted.fd scripted_fileno_stable)
              w 1%nat acts Created) as (_ & Hmap & Hfired & Hsound).
  split; [exact (Hmap 5)|]. split; [|split].
  - apply (proj2 (Hfired 5 Scripted.B 1 [(7, 4)] (Hmap 5))
             1%nat EPoll.events O w []).
    + by left.
    + constructor.
    + reflexivity.
    + repeat constructor.
  - destruct (proj1 (events_yield_latest_registered
                       Scripted.fd scripted_fileno_stable)
                w 1%nat (acts ++ [EPoll.Resume Next]) Created)
      as (_ & Hmap' & Hfired' & _).
    exact (proj1 (Hfired' 7 Scripted.C 4 [] (Hmap' 7)) 1%nat).
  - exact (Hsound 1%nat Next EPoll.events Scripted.B 1 (Suspended [(7, 4)])
             s' eq_refl).
Defined.

(** C4 at work: A is registered on descriptor 5 and unregistered at once;
    then B is registered, on descriptor 5 as well, and the poll reports
    descriptor 5: the generator yields B, and A is not among what it
    yields. *)
Lemma unregistered_object_never_yielded_witness :
  let w : Scripted.world := [Ok [(5, 1)]] in
  let before := [EPoll.Register Scripted.A None] in
  let after := [EPoll.Register Scripted.B None; EPoll.Resume Next] in
  let s := (EPoll.session 1 (before ++ [EPoll.Unregister Scripted.A])
              Created (EPoll.init w)).2 in
  (EPoll.session 1 after EPoll.events s).1.1 = [Yield Scripted.B 1] ∧
  Yield Scripted.A 1 ∉ (EPoll.session 1 after EPoll.events s).1.1.
Proof.
  intros w before after s. split; [reflexivity|].
  apply (proj1 (unregistered_object_never_yielded
                  Scripted.fd scripted_fileno_stable)
           w 1%nat 1%nat before after Created EPoll.events Scripted.A).
  intros flags Hin.
  apply elem_of_cons in Hin as [Hin|Hin]; [discriminate Hin|].
  apply elem_of_cons in Hin as [Hin|Hin]; [discriminate Hin|].
  by apply elem_of_nil in Hin.
Defined.

Section Teardown.
Context {Obj W : Type} `{!Platform Obj W}.
Implicit Types (s : state Obj W) (obj : Obj) (g : frame kevent).

Lemma kqueue_session_calls fuel acts g s :
  ∃ calls,
    trace (KQueue.session fuel acts g s).2 = trace s ++ calls ∧
    Forall (λ c, is_close c = false) calls.
Proof.
  revert g s. induction acts as [|[obj|obj|x] acts IH]; intros g s.
  - exists []. split; [by rewrite app_nil_r|done].
  - cbn [KQueue.session].
    destruct (IH g (KQueue.register obj s).2) as (calls & -> & Hcalls).
    rewrite kqueue_register_run.
    destruct (obj_fileno obj (world s)) as [[fd|e] w1]; cbn [snd trace];
      rewrite <- app_assoc; eexists; (split; [done|]);
      apply Forall_app; split; try done; by repeat constructor.
  - cbn [KQueue.session].
    destruct (IH g (KQueue.unregister obj s).2) as (calls & -> & Hcalls).
    rewrite kqueue_unregister_run.
    destruct (obj_fileno obj (world s)) as [[fd|e] w1];
      [destruct (fdmap s !! fd)|]; cbn [snd trace];
      rewrite <- app_assoc; eexists; (split; [done|]);
      apply Forall_app; split; try done; by repeat constructor.
  - rewrite kqueue_session_resume. cbn [snd]. cbn zeta.
    destruct (KQueue.resume fuel x g s) as [[out g'] s'] eqn:Hres.
    cbn [fst snd].
    destruct (IH g' s') as (calls & -> & Hcalls).
    apply kqueue_resume_inv in Hres as (_ & [n ->] & _).
    rewrite <- app_assoc. eexists. split; [done|].
    apply Forall_app. split; [|done]. by apply Forall_replicate.
Qed.

(** C7.  Whatever a caller does with a [KQueue] and a generator of its
    [events()], in whatever state they are and for however long it
    waits, none of the calls that get made is [self.poller.close()].  The
    loop before that statement is never left in the normal way: a
    generator that is not finished already never returns (no
    [StopIteration]); it yields and stays suspended, it is still polling,
    or it finishes by raising. *)
Theorem kqueue_close_never_called :
  (∀ fuel acts g s,
     let s' := (KQueue.session fuel acts g s).2 in
     trace s' = trace s ++ new_calls s s' ∧
     filter is_close (new_calls s s') = []) ∧
  (∀ fuel x g s,
     match KQueue.resume fuel x g s with
     | (StopIteration, _, _) => g = Finished
     | (Raised _, g', _) => g' = Finished
     | (Yield _ _, g', _) => ∃ rest, g' = Suspended rest
     | (Polling, g', _) => g' = Running
     end).
Proof.
  split.
  - intros fuel acts g s s'. subst s'.
    destruct (kqueue_session_calls fuel acts g s) as (calls & Ht & Hcalls).
    rewrite (new_calls_app _ _ _ Ht). split; [done|].
    clear Ht. induction Hcalls as [|c calls Hc _ IH]; [done|].
    rewrite filter_cons, IH. cbn. by rewrite Hc.
  - intros fuel x g s.
    destruct (KQueue.resume fuel x g s) as [[out g'] s'] eqn:Hres.
    apply kqueue_resume_inv in Hres as (_ & _ & Hout).
    destruct out; try done.
    + destruct Hout as (ev & rest & -> & _). eauto.
    + by destruct Hout.
Qed.
End Teardown.

(** ** cpu_count *)

Section CpuCountFacts.
Import CpuCount.
Local Open Scope string_scope.

Lemma prefix_app sub s :
  String.prefix sub s = true → ∃ t, s = sub ++ t.
Proof.
  revert s. induction sub as [|a sub IH]; intros s.
  - intros _. by exists s.
  - destruct s as [|b s]; cbn; [done|].
    destruct (Ascii.ascii_dec a b) as [->|]; [|done].
    intros [t ->]%IH. by exists t.
Qed.

(** No two occurrences of the pattern overlap (its newline stands only at
    its start), so the scan of [str.count], which skips past each match,
    misses none. *)
Lemma count_from_bogomips s :
  count_from (String "010"%char "bogomips") s =
  occurrences (String "010"%char "bogomips") s.
Proof.
  remember (String.length s) as n eqn:Hn.
  assert (String.length s ≤ n)%nat as Hle by lia. clear Hn.
  revert s Hle. induction n as [|n IH]; intros s Hle.
  - destruct s; [|cbn in Hle; lia]. by simp count_from.
  - destruct s as [|c s']; [by simp count_from|].
    simp count_from. cbn [occurrences].
    destruct (String.prefix _ (String c s')) eqn:Hp; simp count_from.
    + apply prefix_app in Hp as [t Ht].
      cbv [String.append] in Ht. injection Ht as -> ->.
      cbn. rewrite IH; [done|]. cbn in Hle. lia.
    + cbn. apply IH. cbn in Hle. lia.
Qed.

(** C10.  When [os.path.exists] says that [/proc/cpuinfo] is not there,
    [cpu_count] returns 2 and raises nothing, whatever opening the file
    would have done.  When it is there and reading it gives [contents],
    [cpu_count] returns the number of places of [contents] at which a
    newline followed by [bogomips] stands. *)
Theorem cpu_count_counts_bogomips :
  (∀ fs,
     os_path_exists fs "/proc/cpuinfo" = false →
     cpu_count fs = Ok 2) ∧
  (∀ fs contents,
     os_path_exists fs "/proc/cpuinfo" = true →
     open_read fs "/proc/cpuinfo" = Ok contents →
     cpu_count fs =
       Ok (Z.of_nat (occurrences (String "010"%char "bogomips") contents))).
Proof.
  split.
  - intros fs Hex. unfold cpu_count. by rewrite Hex.
  - intros fs contents Hex Hread. unfold cpu_count.
    rewrite Hex, Hread. unfold str_count. by rewrite count_from_bogomips.
Qed.
End CpuCountFacts.

(** C10 at work: a machine without [/proc] has 2 CPUs whatever [open] would
    do there; one whose [/proc/cpuinfo] has two [bogomips] lines has 2 as
    well, and one with a single such line has 1. *)
Lemma cpu_count_counts_bogomips_witness :
  let nl := String "010"%char EmptyString in
  let one := ("processor : 0" ++ nl ++ "bogomips : 4800.00" ++ nl)%string in
  let absent := {| CpuCount.os_path_exists := λ _, false;
                   CpuCount.open_read := λ _, Raise (IOError (Some 2)) |} in
  let present contents :=
    {| CpuCount.os_path_exists := λ p, String.eqb p "/proc/cpuinfo";
       CpuCount.open_read := λ _, Ok contents |} in
  CpuCount.cpu_count absent = Ok 2 ∧
  CpuCount.cpu_count (present one) = Ok 1 ∧
  CpuCount.cpu_count (present (one ++ one)%string) = Ok 2.
Proof.
  intros nl one absent present.
  split; [|split].
  - exact (proj1 cpu_count_counts_bogomips absent eq_refl).
  - exact (proj2 cpu_count_counts_bogomips (present one) one eq_refl eq_refl).
  - exact (proj2 cpu_count_counts_bogomips (present (one ++ one)%string)
             (one ++ one)%string eq_refl eq_refl).
Defined.

(** ** A whole polled list *)

Section Drain.
Context {Obj W : Type} `{!Platform Obj W}.
Implicit Types (s : state Obj W) (obj : Obj).

Lemma epoll_drain fuel rest objs s :
  Forall2 (λ ev obj, fdmap s !! ev.1 = Some obj) rest objs →
  EPoll.session fuel (replicate (length rest) (EPoll.Resume Next))
    (Suspended rest) s =
  (zip_with (λ ev obj, Yield obj ev.2) rest objs, Suspended [], s).
Proof.
  induction 1 as [|[fd fl] obj rest objs Hfd _ IH]; [done|].
  cbn [length replicate]. rewrite epoll_session_resume.
  cbn [EPoll.resume EPoll.for_loop]. unfold fdmap_getitem.
  cbn in Hfd. rewrite Hfd. cbn [EPoll.except_clause fst snd]. cbn zeta.
  by rewrite IH.
Qed.

Lemma kqueue_drain fuel rest objs s :
  Forall2 (λ ev obj, fdmap s !! select.ident ev = Some obj) rest objs →
  KQueue.session fuel (replicate (length rest) (KQueue.Resume Next))
    (Suspended rest) s =
  (zip_with (λ ev obj, Yield obj (select.flags ev)) rest objs,
   Suspended [], s).
Proof.
  induction 1 as [|ev obj rest objs Hfd _ IH]; [done|].
  cbn [length replicate]. rewrite kqueue_session_resume.
  cbn [KQueue.resume KQueue.for_loop]. unfold fdmap_getitem.
  rewrite Hfd. cbn [KQueue.except_clause fst snd]. cbn zeta.
  by rewrite IH.
Qed.

(** X1.  Every call a generator of [KQueue.events()] makes, on any resumption,
    is [self.poller.control(None, max_events=0)], and each pass through
    the [try] body makes exactly one. *)
Theorem kqueue_events_poll_arguments :
  (∀ fuel x g s,
     let s' := (KQueue.resume fuel x g s).2 in
     ∃ n, trace s' = trace s ++ replicate n (Ckqueue_control None 0)) ∧
  (∀ s, trace (KQueue.try_poll s).2 = trace s ++ [Ckqueue_control None 0]).
Proof.
  split.
  - intros fuel x g s.
    destruct (KQueue.resume fuel x g s) as [[out g'] s'] eqn:Hres. cbn.
    by apply kqueue_resume_inv in Hres as (_ & ? & _).
  - intros s. unfold KQueue.try_poll, outside.
    by destruct (kqueue_control None 0 (world s)) as [[evs|e] w1].
Qed.

(** X2.  When a poll returns a list of events on registered descriptors, the
    generator yields one pair per event of the list, in the order of the
    list, each with the object registered for the event's descriptor and
    the event's flags, and polls once for all of them. *)
Theorem events_yield_whole_polled_list :
  (∀ s w2 evs objs fuel,
     epoll_poll (world s) = (Ok evs, w2) →
     evs ≠ [] →
     Forall2 (λ ev obj, fdmap s !! ev.1 = Some obj) evs objs →
     EPoll.session (S fuel) (replicate (length evs) (EPoll.Resume Next))
       EPoll.events s =
     (zip_with (λ ev obj, Yield obj ev.2) evs objs, Suspended [],
      {| fdmap := fdmap s; world := w2;
         trace := trace s ++ [Cepoll_poll] |})) ∧
  (∀ s w2 evs objs fuel,
     kqueue_control None 0 (world s) = (Ok evs, w2) →
     evs ≠ [] →
     Forall2 (λ ev obj, fdmap s !! select.ident ev = Some obj) evs objs →
     KQueue.session (S fuel) (replicate (length evs) (KQueue.Resume Next))
       KQueue.events s =
     (zip_with (λ ev obj, Yield obj (select.flags ev)) evs objs,
      Suspended [],
      {| fdmap := fdmap s; world := w2;
         trace := trace s ++ [Ckqueue_control None 0] |})).
Proof.
  split; intros [m w t] w2 evs objs fuel Hpoll Hne Hall;
    cbn [fdmap world trace] in *.
  - destruct Hall as [|[fd fl] obj rest objs Hfd Hrest]; [done|].
    cbn [length replicate]. rewrite epoll_session_resume.
    cbn [EPoll.resume EPoll.events].
    rewrite (epoll_poll_yields _ _ _ _ _ _ _ _ _ Hpoll Hfd).
    cbn [fst snd]. cbn zeta. by rewrite (epoll_drain _ _ objs).
  - destruct Hall as [|ev obj rest objs Hfd Hrest]; [done|].
    cbn [length replicate]. rewrite kqueue_session_resume.
    cbn [KQueue.resume KQueue.events].
    rewrite (kqueue_poll_yields _ _ _ _ _ _ _ _ Hpoll Hfd).
    cbn [fst snd]. cbn zeta. by rewrite (kqueue_drain _ _ objs).
Qed.
End Drain.

(** Three objects on three descriptors, two of them ready at once: the two
    pairs come out, in the order of the poll. *)
Lemma events_yield_whole_polled_list_witness :
  let w : Scripted.world := [Ok [(7, 1); (5, 1)]] in
  let D := {| Scripted.name := "D"; Scripted.fd := 9 |} in
  let acts := [EPoll.Register Scripted.A None; EPoll.Register Scripted.C None;
               EPoll.Register D None] in
  let s := (EPoll.session 1 acts Created (EPoll.init w)).2 in
  EPoll.session 1 [EPoll.Resume Next; EPoll.Resume Next] EPoll.events s =
    ([Yield Scripted.C 1; Yield Scripted.A 1], Suspended [],
     {| fdmap := fdmap s; world := []; trace := trace s ++ [Cepoll_poll] |}).
Proof.
  intros w D acts s.
  apply (proj1 events_yield_whole_polled_list
           s [] [(7, 1); (5, 1)] [Scripted.C; Scripted.A] O).
  - reflexivity.
  - discriminate.
  - repeat constructor.
Defined.

(** * Properties beyond the claims *)

(** ** Register and unregister together *)

Section RoundTrip.
Context {Obj W : Type} `{!Platform Obj W}.
Implicit Types (s : state Obj W) (obj : Obj).

(** X3.  With a stable [fileno()], [register(obj)] followed by
    [unregister(obj)] leaves [fdmap] without an entry for [obj]'s
    descriptor: the map it started from when that descriptor was not a key,
    and otherwise that map less the object that was registered under the
    descriptor before.  The deletion never fails: both kernel calls are
    issued, on that descriptor, each after its own [fileno] call. *)
Theorem register_unregister_round_trip (fd_of : Obj → Z) :
  stable_fileno fd_of →
  ∀ s obj flags,
    let e := (EPoll.unregister obj (EPoll.register obj flags s).2).2 in
    let k := (KQueue.unregister obj (KQueue.register obj s).2).2 in
    let fd := fd_of obj in
    fdmap e = delete fd (fdmap s) ∧
    fdmap k = delete fd (fdmap s) ∧
    (fdmap s !! fd = None → fdmap e = fdmap s ∧ fdmap k = fdmap s) ∧
    new_calls s e =
      [Cfileno obj; Cepoll_register fd (default EPOLLIN flags);
       Cfileno obj; Cepoll_unregister fd] ∧
    new_calls s k =
      [Cfileno obj; Ckqueue_control (Some (add_event fd)) 0;
       Cfileno obj; Ckqueue_control (Some (delete_event fd)) 0].
Proof.
  intros Hstable s obj flags e k fd.
  assert (fdmap e = delete fd (fdmap s)) as He.
  { subst e. rewrite (epoll_unregister_fdmap fd_of Hstable),
      (epoll_register_fdmap fd_of Hstable). apply delete_insert_eq. }
  assert (fdmap k = delete fd (fdmap s)) as Hk.
  { subst k. rewrite (kqueue_unregister_fdmap fd_of Hstable),
      (kqueue_register_fdmap fd_of Hstable). apply delete_insert_eq. }
  split; [done|]. split; [done|]. split.
  { intros Hnone. rewrite He, Hk. by rewrite delete_id. }
  subst e k. split; apply new_calls_app.
  - rewrite epoll_unregister_run, epoll_register_run.
    pose proof (Hstable obj (world s)) as H1.
    destruct (obj_fileno obj (world s)) as [[fd1|e1] w1]; [|done].
    injection H1 as ->. cbn [snd world fdmap trace]. cbn zeta.
    set (w2 := (epoll_register _ _ w1).2).
    pose proof (Hstable obj w2) as H2.
    destruct (obj_fileno obj w2) as [[fd2|e2] w3]; [|done].
    injection H2 as ->. rewrite lookup_insert_eq. cbn [snd trace].
    by rewrite <- app_assoc.
  - rewrite kqueue_unregister_run, kqueue_register_run.
    pose proof (Hstable obj (world s)) as H1.
    destruct (obj_fileno obj (world s)) as [[fd1|e1] w1]; [|done].
    injection H1 as ->. cbn [snd world fdmap trace]. cbn zeta.
    set (w2 := (kqueue_control _ 0 w1).2).
    pose proof (Hstable obj w2) as H2.
    destruct (obj_fileno obj w2) as [[fd2|e2] w3]; [|done].
    injection H2 as ->. rewrite lookup_insert_eq. cbn [snd trace].
    by rewrite <- app_assoc.
Qed.

(** X4.  With a stable [fileno()], a second [unregister(obj)] right after a
    first one always fails with [KeyError] on [obj]'s descriptor, whatever
    the first one did; it changes nothing in [fdmap] and calls only
    [fileno]. *)
Theorem unregister_twice_fails (fd_of : Obj → Z) :
  stable_fileno fd_of →
  ∀ s obj,
    let e := (EPoll.unregister obj s).2 in
    let k := (KQueue.unregister obj s).2 in
    EPoll.unregister obj e =
      (Raise (KeyError (fd_of obj)),
       {| fdmap := fdmap e; world := (obj_fileno obj (world e)).2;
          trace := trace e ++ [Cfileno obj] |}) ∧
    KQueue.unregister obj k =
      (Raise (KeyError (fd_of obj)),
       {| fdmap := fdmap k; world := (obj_fileno obj (world k)).2;
          trace := trace k ++ [Cfileno obj] |}).
Proof.
  intros Hstable s obj e k. split.
  - rewrite epoll_unregister_run.
    pose proof (Hstable obj (world e)) as H.
    destruct (obj_fileno obj (world e)) as [[fd|e1] w1]; [|done].
    injection H as ->.
    assert (fdmap e !! fd_of obj = None) as ->; [|done].
    subst e. rewrite (epoll_unregister_fdmap fd_of Hstable).
    apply lookup_delete_eq.
  - rewrite kqueue_unregister_run.
    pose proof (Hstable obj (world k)) as H.
    destruct (obj_fileno obj (world k)) as [[fd|e1] w1]; [|done].
    injection H as ->.
    assert (fdmap k !! fd_of obj = None) as ->; [|done].
    subst k. rewrite (kqueue_unregister_fdmap fd_of Hstable).
    apply lookup_delete_eq.
Qed.
End RoundTrip.

(** X3 at work: C is registered on descriptor 7 and unregistered; the map,
    which held A on descriptor 5, is as before. *)
Lemma register_unregister_round_trip_witness :
  let s := (EPoll.register Scripted.A None
              (EPoll.init ([] : Scripted.world))).2 in
  let e := (EPoll.unregister Scripted.C
              (EPoll.register Scripted.C None s).2).2 in
  fdmap e = fdmap s ∧
  new_calls s e = [Cfileno Scripted.C; Cepoll_register 7 1;
                   Cfileno Scripted.C; Cepoll_unregister 7].
Proof.
  intros s e.
  pose proof (register_unregister_round_trip Scripted.fd
                scripted_fileno_stable s Scripted.C None)
    as (_ & _ & Hsame & Hcalls & _).
  split; [|exact Hcalls].
  exact (proj1 (Hsame eq_refl)).
Defined.

(** X4 at work: A is registered and unregistered; unregistering it once
    more fails with [KeyError(5)]. *)
Lemma unregister_twice_fails_witness :
  let s := (EPoll.register Scripted.A None
              (EPoll.init ([] : Scripted.world))).2 in
  let e := (EPoll.unregister Scripted.A s).2 in
  EPoll.unregister Scripted.A e =
    (Raise (KeyError 5),
     {| fdmap := fdmap e; world := []; trace := trace e ++ [Cfileno Scripted.A] |}).
Proof.
  intros s e.
  exact (proj1 (unregister_twice_fails Scripted.fd scripted_fileno_stable
                  s Scripted.A)).
Defined.

(** ** The map and the kernel *)

Section MapAndKernel.
Context {Obj W : Type} `{!Platform Obj W}.
Implicit Types (s : state Obj W) (obj : Obj).

(** X5.  Both methods change [fdmap] before they call the kernel, and
    nothing undoes the change: when the kernel call of [register] raises,
    the exception comes out of [register] and [obj] is in [fdmap] under its
    descriptor all the same; when the kernel call of [unregister] raises,
    the exception comes out and the entry is gone all the same. *)
Theorem kernel_refusal_keeps_map_change :
  (∀ s obj flags fd w1 e w2,
     obj_fileno obj (world s) = (Ok fd, w1) →
     epoll_register fd (default EPOLLIN flags) w1 = (Raise e, w2) →
     EPoll.register obj flags s =
       (Raise e,
        {| fdmap := <[fd := obj]> (fdmap s); world := w2;
           trace := trace s ++
             [Cfileno obj; Cepoll_register fd (default EPOLLIN flags)] |})) ∧
  (∀ s obj fd w1 e w2,
     obj_fileno obj (world s) = (Ok fd, w1) →
     is_Some (fdmap s !! fd) →
     epoll_unregister fd w1 = (Raise e, w2) →
     EPoll.unregister obj s =
       (Raise e,
        {| fdmap := delete fd (fdmap s); world := w2;
           trace := trace s ++ [Cfileno obj; Cepoll_unregister fd] |})) ∧
  (∀ s obj fd w1 e w2,
     obj_fileno obj (world s) = (Ok fd, w1) →
     kqueue_control (Some (add_event fd)) 0 w1 = (Raise e, w2) →
     KQueue.register obj s =
       (Raise e,
        {| fdmap := <[fd := obj]> (fdmap s); world := w2;
           trace := trace s ++
             [Cfileno obj; Ckqueue_control (Some (add_event fd)) 0] |})) ∧
  (∀ s obj fd w1 e w2,
     obj_fileno obj (world s) = (Ok fd, w1) →
     is_Some (fdmap s !! fd) →
     kqueue_control (Some (delete_event fd)) 0 w1 = (Raise e, w2) →
     KQueue.unregister obj s =
       (Raise e,
        {| fdmap := delete fd (fdmap s); world := w2;
           trace := trace s ++
             [Cfileno obj; Ckqueue_control (Some (delete_event fd)) 0] |})).
Proof.
  split; [|split; [|split]].
  - intros s obj flags fd w1 e w2 Hfd Hk.
    rewrite epoll_register_run, Hfd. cbn zeta. by rewrite Hk.
  - intros s obj fd w1 e w2 Hfd [old Hold] Hk.
    by rewrite epoll_unregister_run, Hfd, Hold, Hk.
  - intros s obj fd w1 e w2 Hfd Hk.
    rewrite kqueue_register_run, Hfd. cbn zeta. by rewrite Hk.
  - intros s obj fd w1 e w2 Hfd [old Hold] Hk.
    rewrite kqueue_unregister_run, Hfd, Hold. cbn zeta. by rewrite Hk.
Qed.

Lemma epoll_latest_registered fd_of fd (acts : list (@EPoll.action Obj))
    found obj :
  epoll_latest fd_of fd acts found = Some obj →
  found = Some obj ∨ ∃ flags, EPoll.Register obj flags ∈ acts.
Proof.
  revert found. induction acts as [|[obj' fl|obj'|x] acts IH];
    intros found; cbn [epoll_latest].
  - by left.
  - intros [Hf|[flags Hin]]%IH.
    + case_decide; [|by left]. injection Hf as ->. right. exists fl. by left.
    + right. exists flags. by right.
  - intros [Hf|[flags Hin]]%IH; [by left|]. right. exists flags. by right.
  - intros [Hf|[flags Hin]]%IH; [by left|]. right. exists flags. by right.
Qed.

Lemma kqueue_latest_registered fd_of fd (acts : list (@KQueue.action Obj))
    found obj :
  kqueue_latest fd_of fd acts found = Some obj →
  found = Some obj ∨ KQueue.Register obj ∈ acts.
Proof.
  revert found. induction acts as [|[obj'|obj'|x] acts IH];
    intros found; cbn [kqueue_latest].
  - by left.
  - intros [Hf|Hin]%IH.
    + case_decide; [|by left]. injection Hf as ->. right. by left.
    + right. by right.
  - intros [Hf|Hin]%IH; [by left|]. right. by right.
  - intros [Hf|Hin]%IH; [by left|]. right. by right.
Qed.

(** X6.  With a stable [fileno()], after any sequence of [register],
    [unregister] and generator calls on a fresh poller, every entry of
    [fdmap] holds, under a descriptor, an object that reports that
    descriptor and that some [register] call of the sequence was given. *)
Theorem fdmap_entries_registered (fd_of : Obj → Z) :
  stable_fileno fd_of →
  (∀ w fuel acts g0 fd obj,
     fdmap (EPoll.session fuel acts g0 (EPoll.init w)).2 !! fd = Some obj →
     fd_of obj = fd ∧ ∃ flags, EPoll.Register obj flags ∈ acts) ∧
  (∀ w fuel acts g0 fd obj,
     fdmap (KQueue.session fuel acts g0 (KQueue.init w)).2 !! fd = Some obj →
     fd_of obj = fd ∧ KQueue.Register obj ∈ acts).
Proof.
  intros Hstable. split; intros w fuel acts g0 fd obj Hfd.
  - split.
    + eapply (epoll_session_keyed fd_of Hstable); [|exact Hfd].
      intros fd0 o. cbn. by rewrite lookup_empty.
    + eapply (epoll_session_latest fd_of Hstable _ _ _ _ (λ _, None))
        in Hfd.
      * by apply epoll_latest_registered in Hfd as [?|?].
      * intros fd0 o. cbn. by rewrite lookup_empty.
  - split.
    + eapply (kqueue_session_keyed fd_of Hstable); [|exact Hfd].
      intros fd0 o. cbn. by rewrite lookup_empty.
    + eapply (kqueue_session_latest fd_of Hstable _ _ _ _ (λ _, None))
        in Hfd.
      * by apply kqueue_latest_registered in Hfd as [?|?].
      * intros fd0 o. cbn. by rewrite lookup_empty.
Qed.

(** X7.  A generator of [events()] never touches [fdmap], whatever it is
    sent, in both classes; and the only outside call the generator of
    [EPoll.events()] makes is [self.poller.poll()]. *)
Theorem events_leave_fdmap_alone :
  (∀ fuel x g s,
     let s' := (EPoll.resume fuel x g s).2 in
     fdmap s' = fdmap s ∧
     ∃ n, trace s' = trace s ++ replicate n Cepoll_poll) ∧
  (∀ fuel x g s, fdmap (KQueue.resume fuel x g s).2 = fdmap s).
Proof.
  split; intros fuel x g s.
  - destruct (EPoll.resume fuel x g s) as [[out g'] s'] eqn:Hres. cbn.
    by apply epoll_resume_inv in Hres as (? & ? & _).
  - apply kqueue_resume_fdmap.
Qed.
End MapAndKernel.

Section RefusingKernel.
Local Existing Instance Refusing.platform.

(** X5 at work, on the platform whose kernel refuses everything:
    [register(A)] raises [EEXIST] and A is in the map; [unregister(A)] then
    raises [ENOENT] and the map is empty. *)
Lemma kernel_refusal_keeps_map_change_witness :
  let s := EPoll.init (() : Refusing.world) in
  let s1 := {| fdmap := <[5 := Scripted.A]> ∅; world := ();
               trace := [Cfileno Scripted.A; Cepoll_register 5 1] |} in
  EPoll.register Scripted.A None s = (Raise (IOError (Some 17)), s1) ∧
  EPoll.unregister Scripted.A s1 =
    (Raise (IOError (Some 2)),
     {| fdmap := delete 5 (<[5 := Scripted.A]> ∅); world := ();
        trace := trace s1 ++ [Cfileno Scripted.A; Cepoll_unregister 5] |}).
Proof.
  intros s s1.
  pose proof (kernel_refusal_keeps_map_change
                (Platform0 := Refusing.platform)) as (Hr & Hu & _).
  split.
  - exact (Hr s Scripted.A None 5 () (IOError (Some 17)) () eq_refl eq_refl).
  - apply (Hu s1 Scripted.A 5 () (IOError (Some 2)) () eq_refl);
      [|reflexivity].
    exists Scripted.A. apply lookup_insert_eq.
Defined.
End RefusingKernel.

(** X6 at work: after A and C are registered and A is unregistered, the
    entry under descriptor 7 is C, which reports 7 and was registered. *)
Lemma fdmap_entries_registered_witness :
  let acts := [EPoll.Register Scripted.A None; EPoll.Register Scripted.C None;
               EPoll.Unregister Scripted.A] in
  Scripted.fd Scripted.C = 7 ∧ ∃ flags, EPoll.Register Scripted.C flags ∈ acts.
Proof.
  intros acts.
  apply (proj1 (fdmap_entries_registered Scripted.fd scripted_fileno_stable)
           ([] : Scripted.world) 1%nat acts Created 7 Scripted.C).
  reflexivity.
Defined.

(** ** More on one resumption *)

Section Quietly.
Context {Obj W : Type} `{!Platform Obj W}.
Implicit Types (s : state Obj W) (obj : Obj).

Lemma epoll_skip_quiet n fuel m w t w1 :
  epoll_quiet n w w1 →
  EPoll.while_loop (n + fuel) {| fdmap := m; world := w; trace := t |} =
  EPoll.while_loop fuel
    {| fdmap := m; world := w1; trace := t ++ replicate n Cepoll_poll |}.
Proof.
  intros H. revert t.
  induction H as [w|n w w1 w' Hpoll _ IH|n w w1 w' Hpoll _ IH]; intros t.
  - cbn. by rewrite app_nil_r.
  - cbn [Nat.add EPoll.while_loop]. unfold EPoll.try_poll, outside.
    cbn [world fdmap trace]. rewrite Hpoll. cbn [EPoll.except_clause].
    rewrite decide_False by (intros Hne; by apply Hne).
    rewrite IH. cbn [replicate]. by rewrite <- app_assoc.
  - cbn [Nat.add EPoll.while_loop]. unfold EPoll.try_poll, outside.
    cbn [world fdmap trace]. rewrite Hpoll.
    cbn [EPoll.for_loop EPoll.except_clause].
    rewrite IH. cbn [replicate]. by rewrite <- app_assoc.
Qed.

Lemma kqueue_skip_quiet n fuel m w t w1 :
  kqueue_quiet n w w1 →
  KQueue.while_loop (n + fuel) {| fdmap := m; world := w; trace := t |} =
  KQueue.while_loop fuel
    {| fdmap := m; world := w1;
       trace := t ++ replicate n (Ckqueue_control None 0) |}.
Proof.
  intros H. revert t.
  induction H as [w|n w w1 w' Hpoll _ IH|n w w1 w' Hpoll _ IH]; intros t.
  - cbn. by rewrite app_nil_r.
  - cbn [Nat.add KQueue.while_loop]. unfold KQueue.try_poll, outside.
    cbn [world fdmap trace]. rewrite Hpoll. cbn [KQueue.except_clause].
    rewrite decide_False by (intros Hne; by apply Hne).
    rewrite IH. cbn [replicate]. by rewrite <- app_assoc.
  - cbn [Nat.add KQueue.while_loop]. unfold KQueue.try_poll, outside.
    cbn [world fdmap trace]. rewrite Hpoll.
    cbn [KQueue.for_loop KQueue.except_clause].
    rewrite IH. cbn [replicate]. by rewrite <- app_assoc.
Qed.

(** X8.  A poll that returns an empty list is passed over like an
    interrupted one: nothing is yielded for it and the loop polls again.
    After [n] polls that are empty or interrupted, a poll reporting an
    event on a registered descriptor makes [next] yield that object, given
    a budget of more than [n] polls; and as long as every poll is empty or
    interrupted, [next] does not come back: a budget of [n] polls ends
    still polling, after exactly [n] polls. *)
Theorem events_skip_empty_polls :
  (∀ s g n w1 w2 fd fl rest obj fuel,
     g = Created ∨ g = Suspended [] →
     epoll_quiet n (world s) w1 →
     epoll_poll w1 = (Ok ((fd, fl) :: rest), w2) →
     fdmap s !! fd = Some obj →
     (n < fuel)%nat →
     EPoll.resume fuel Next g s =
       (Yield obj fl, Suspended rest,
        {| fdmap := fdmap s; world := w2;
           trace := trace s ++ replicate (S n) Cepoll_poll |})) ∧
  (∀ s g n w1,
     g = Created ∨ g = Suspended [] →
     epoll_quiet n (world s) w1 →
     EPoll.resume n Next g s =
       (Polling, Running,
        {| fdmap := fdmap s; world := w1;
           trace := trace s ++ replicate n Cepoll_poll |})) ∧
  (∀ s g n w1 w2 ev rest obj fuel,
     g = Created ∨ g = Suspended [] →
     kqueue_quiet n (world s) w1 →
     kqueue_control None 0 w1 = (Ok (ev :: rest), w2) →
     fdmap s !! select.ident ev = Some obj →
     (n < fuel)%nat →
     KQueue.resume fuel Next g s =
       (Yield obj (select.flags ev), Suspended rest,
        {| fdmap := fdmap s; world := w2;
           trace := trace s ++ replicate (S n) (Ckqueue_control None 0) |})) ∧
  (∀ s g n w1,
     g = Created ∨ g = Suspended [] →
     kqueue_quiet n (world s) w1 →
     KQueue.resume n Next g s =
       (Polling, Running,
        {| fdmap := fdmap s; world := w1;
           trace := trace s ++ replicate n (Ckqueue_control None 0) |})).
Proof.
  split; [|split; [|split]].
  - intros [m w t] g n w1 w2 fd fl rest obj fuel Hg Hq Hpoll Hfd Hfuel.
    cbn [fdmap world trace] in *.
    rewrite epoll_resume_at_poll by done.
    replace fuel with (n + S (fuel - S n))%nat by lia.
    rewrite (epoll_skip_quiet _ _ _ _ _ _ Hq).
    rewrite (epoll_poll_yields _ _ _ _ _ _ _ _ _ Hpoll Hfd).
    by rewrite replicate_S_end, app_assoc.
  - intros [m w t] g n w1 Hg Hq. cbn [fdmap world trace] in *.
    rewrite epoll_resume_at_poll by done.
    replace n with (n + 0)%nat at 1 by lia.
    by rewrite (epoll_skip_quiet _ _ _ _ _ _ Hq).
  - intros [m w t] g n w1 w2 ev rest obj fuel Hg Hq Hpoll Hfd Hfuel.
    cbn [fdmap world trace] in *.
    rewrite kqueue_resume_at_poll by done.
    replace fuel with (n + S (fuel - S n))%nat by lia.
    rewrite (kqueue_skip_quiet _ _ _ _ _ _ Hq).
    rewrite (kqueue_poll_yields _ _ _ _ _ _ _ _ Hpoll Hfd).
    by rewrite replicate_S_end, app_assoc.
  - intros [m w t] g n w1 Hg Hq. cbn [fdmap world trace] in *.
    rewrite kqueue_resume_at_poll by done.
    replace n with (n + 0)%nat at 1 by lia.
    by rewrite (kqueue_skip_quiet _ _ _ _ _ _ Hq).
Qed.

(** X9.  The [yield] stands inside the [try], so the [except] clause also
    sees an [IOError] that the consumer throws in at the [yield], in both
    classes.  With [errno == EINTR] it is caught like an interrupted poll:
    what was left of the polled list is given up and the generator goes on
    as a fresh one would, with a new poll.  With any other [errno] it is
    raised again: it comes back to the consumer and leaves the generator
    finished, without any poll. *)
Theorem throw_into_events :
  (∀ s fuel rest,
     EPoll.resume fuel (Throw (IOError (Some EINTR))) (Suspended rest) s =
     EPoll.resume fuel Next EPoll.events s) ∧
  (∀ s fuel rest errno,
     errno ≠ Some EINTR →
     EPoll.resume fuel (Throw (IOError errno)) (Suspended rest) s =
       (Raised (IOError errno), Finished, s)) ∧
  (∀ s fuel rest,
     KQueue.resume fuel (Throw (IOError (Some EINTR))) (Suspended rest) s =
     KQueue.resume fuel Next KQueue.events s) ∧
  (∀ (s : state Obj W) fuel rest errno,
     errno ≠ Some EINTR →
     KQueue.resume fuel (Throw (IOError errno)) (Suspended rest) s =
       (Raised (IOError errno), Finished, s)).
Proof.
  split; [|split; [|split]].
  - intros s fuel rest. cbn [EPoll.resume EPoll.except_clause EPoll.events].
    by rewrite decide_False by (intros Hne; by apply Hne).
  - intros s fuel rest errno He. cbn [EPoll.resume EPoll.except_clause].
    by rewrite decide_True.
  - intros s fuel rest. cbn [KQueue.resume KQueue.except_clause KQueue.events].
    by rewrite decide_False by (intros Hne; by apply Hne).
  - intros s fuel rest errno He. cbn [KQueue.resume KQueue.except_clause].
    by rewrite decide_True.
Qed.

(** X10.  The object of a pending event is looked up when [next] is called,
    not when the poll returned: if [register(obj)] is called while the
    generator is suspended with an event on [obj]'s descriptor still to
    come, [next] yields [obj] for that event, whoever was registered
    before and whatever the kernel said to the registration; if
    [unregister(obj)] is called instead, [next] raises [KeyError] on that
    descriptor and the generator is finished. *)
Theorem pending_event_resolved_at_next :
  (∀ s obj flags fd w1 fl rest fuel,
     obj_fileno obj (world s) = (Ok fd, w1) →
     let s' := (EPoll.register obj flags s).2 in
     EPoll.resume fuel Next (Suspended ((fd, fl) :: rest)) s' =
       (Yield obj fl, Suspended rest, s')) ∧
  (∀ s obj fd w1 fl rest fuel,
     obj_fileno obj (world s) = (Ok fd, w1) →
     let s' := (EPoll.unregister obj s).2 in
     EPoll.resume fuel Next (Suspended ((fd, fl) :: rest)) s' =
       (Raised (KeyError fd), Finished, s')) ∧
  (∀ s obj w1 ev rest fuel,
     obj_fileno obj (world s) = (Ok (select.ident ev), w1) →
     let s' := (KQueue.register obj s).2 in
     KQueue.resume fuel Next (Suspended (ev :: rest)) s' =
       (Yield obj (select.flags ev), Suspended rest, s')) ∧
  (∀ s obj w1 ev rest fuel,
     obj_fileno obj (world s) = (Ok (select.ident ev), w1) →
     let s' := (KQueue.unregister obj s).2 in
     KQueue.resume fuel Next (Suspended (ev :: rest)) s' =
       (Raised (KeyError (select.ident ev)), Finished, s')).
Proof.
  split; [|split; [|split]].
  - intros s obj flags fd w1 fl rest fuel Hfd s'.
    assert (fdmap s' !! fd = Some obj) as Hl.
    { subst s'. rewrite epoll_register_run, Hfd. cbn. apply lookup_insert_eq. }
    cbn [EPoll.resume EPoll.for_loop]. unfold fdmap_getitem. by rewrite Hl.
  - intros s obj fd w1 fl rest fuel Hfd s'.
    assert (fdmap s' !! fd = None) as Hl.
    { subst s'. rewrite epoll_unregister_run, Hfd.
      destruct (fdmap s !! fd) eqn:Hold; cbn; [apply lookup_delete_eq|done]. }
    cbn [EPoll.resume EPoll.for_loop]. unfold fdmap_getitem. by rewrite Hl.
  - intros s obj w1 ev rest fuel Hfd s'.
    assert (fdmap s' !! select.ident ev = Some obj) as Hl.
    { subst s'. rewrite kqueue_register_run, Hfd. cbn. apply lookup_insert_eq. }
    cbn [KQueue.resume KQueue.for_loop]. unfold fdmap_getitem. by rewrite Hl.
  - intros s obj w1 ev rest fuel Hfd s'.
    assert (fdmap s' !! select.ident ev = None) as Hl.
    { subst s'. rewrite kqueue_unregister_run, Hfd.
      destruct (fdmap s !! select.ident ev) eqn:Hold; cbn;
        [apply lookup_delete_eq|done]. }
    cbn [KQueue.resume KQueue.for_loop]. unfold fdmap_getitem. by rewrite Hl.
Qed.
End Quietly.

(** X8 at work: A is registered on descriptor 5; an empty poll and an
    interrupted one come before the poll that reports descriptor 5, and
    [next] yields [(A, 1)] after three polls; when the kernel has nothing
    to report, two polls are two polls spent. *)
Lemma events_skip_empty_polls_witness :
  let w : Scripted.world := [Ok []; Raise (IOError (Some 4)); Ok [(5, 1)]] in
  let s := (EPoll.register Scripted.A None (EPoll.init w)).2 in
  let idle := EPoll.init ([] : Scripted.world) in
  EPoll.resume 3 Next EPoll.events s =
    (Yield Scripted.A 1, Suspended [],
     {| fdmap := fdmap s; world := [];
        trace := trace s ++ [Cepoll_poll; Cepoll_poll; Cepoll_poll] |}) ∧
  EPoll.resume 2 Next EPoll.events idle =
    (Polling, Running,
     {| fdmap := ∅; world := []; trace := [Cepoll_poll; Cepoll_poll] |}).
Proof.
  intros w s idle.
  pose proof events_skip_empty_polls as (Hy & Hp & _).
  split.
  - apply (Hy s Created 2%nat [Ok [(5, 1)]] [] 5 1 [] Scripted.A 3%nat).
    + by left.
    + eapply epoll_quiet_empty; [reflexivity|].
      eapply epoll_quiet_interrupted; [reflexivity|]. constructor.
    + reflexivity.
    + reflexivity.
    + repeat constructor.
  - apply (Hp idle Created 2%nat []).
    + by left.
    + eapply epoll_quiet_empty; [reflexivity|].
      eapply epoll_quiet_empty; [reflexivity|]. constructor.
Defined.

(** X9 at work: A is registered on descriptor 5, C on 7, and the generator
    is suspended with the event on descriptor 5 still to come.  An
    [IOError] with [EINTR] thrown in makes it poll again: the event on 5 is
    lost and the consumer gets C, which the new poll reports.  An [IOError]
    with [EBADF] (errno 9) thrown in comes back and nothing is polled. *)
Lemma throw_into_events_witness :
  let w : Scripted.world := [Ok [(7, 1)]] in
  let s := (EPoll.register Scripted.C None
              (EPoll.register Scripted.A None (EPoll.init w)).2).2 in
  EPoll.resume 1 (Throw (IOError (Some 4))) (Suspended [(5, 1)]) s =
    (Yield Scripted.C 1, Suspended [],
     {| fdmap := fdmap s; world := []; trace := trace s ++ [Cepoll_poll] |}) ∧
  EPoll.resume 1 (Throw (IOError (Some 9))) (Suspended [(5, 1)]) s =
    (Raised (IOError (Some 9)), Finished, s).
Proof.
  intros w s.
  pose proof throw_into_events as (Hcaught & Hraised & _).
  split.
  - exact (Hcaught s 1%nat [(5, 1)]).
  - apply (Hraised s 1%nat [(5, 1)] (Some 9)). discriminate.
Defined.

(** X10 at work: A is registered on descriptor 5 and the generator is
    suspended with an event on 5 to come; B, which reports 5 too, is
    registered, and [next] yields B. *)
Lemma pending_event_resolved_at_next_witness :
  let s := (EPoll.register Scripted.A None
              (EPoll.init ([] : Scripted.world))).2 in
  let s' := (EPoll.register Scripted.B None s).2 in
  EPoll.resume 1 Next (Suspended [(5, 1)]) s' =
    (Yield Scripted.B 1, Suspended [], s').
Proof.
  intros s s'.
  exact (proj1 pending_event_resolved_at_next
           s Scripted.B None 5 [] 1 [] 1%nat eq_refl).
Defined.

(** ** configure_tty *)

Ltac run_io :=
  unfold Posix.with_configure_tty, Posix.configure_tty_enter,
    Posix.configure_tty_finally, Posix.discard_input,
    Posix.except_OSError_pass, Posix.io_raise,
    mbind, Posix.IO_bind, mret, Posix.IO_ret, Posix.syscall;
  cbn [Posix.io_world Posix.io_trace fst snd].

Section ConfigureTty.
Import Posix.
Context {Mode File W : Type} `{!Os Mode File W}.
Implicit Types (w : W) (t : list (call Mode File)).

(** X14.  When both standard streams are terminals and the set-up goes
    through, the body of [with configure_tty()] runs with [True] after the
    five calls of the set-up, and whatever it does, returns or raises, the
    next call after it is [tcsetattr(fd, TCSAFLUSH, original_mode)], with
    the descriptor [stdin.fileno()] returned and the mode [tcgetattr]
    returned.  The [with] statement ends as the body did, unless
    [tcsetattr] raises, whose exception then takes the place of the body's
    outcome. *)
Theorem configure_tty_restores_mode {A} (body : bool → IO Mode File W A)
    w t w1 w2 fd w3 original_mode w4 w5 :
  stdin_isatty w = (Ok true, w1) →
  stdout_isatty w1 = (Ok true, w2) →
  stdin_fileno w2 = (Ok fd, w3) →
  tcgetattr fd w3 = (Ok original_mode, w4) →
  setcbreak fd w4 = (Ok (), w5) →
  let setup := [Cstdin_isatty; Cstdout_isatty; Cstdin_fileno;
                Ctcgetattr fd; Csetcbreak fd] in
  let inside := body true {| io_world := w5; io_trace := t ++ setup |} in
  let restore := tcsetattr fd TCSAFLUSH original_mode (io_world inside.2) in
  with_configure_tty body {| io_world := w; io_trace := t |} =
    (match restore.1 with Ok _ => inside.1 | Raise e => Raise e end,
     {| io_world := restore.2;
        io_trace := io_trace inside.2 ++
                    [Ctcsetattr fd TCSAFLUSH original_mode] |}).
Proof.
  intros H1 H2 H3 H4 H5 setup inside restore. run_io.
  rewrite H1. cbn. rewrite H2. cbn. rewrite H3. cbn. rewrite H4. cbn.
  rewrite H5. cbn. rewrite <- !app_assoc. cbn [app].
  fold setup. fold inside. destruct inside as [r st2]. cbn [fst snd] in *.
  fold restore. by destruct restore as [[[]|e] w6].
Qed.

(** X15.  When standard input is not a terminal, [stdout.isatty()] is not
    even asked; when standard input is one and standard output is not, both
    are asked.  In both cases the body of [with configure_tty()] runs with
    [False], no call of [termios] or [tty] is made before or after it, and
    the statement ends exactly as the body did. *)
Theorem configure_tty_without_terminal {A} (body : bool → IO Mode File W A) :
  (∀ w t w1,
     stdin_isatty w = (Ok false, w1) →
     with_configure_tty body {| io_world := w; io_trace := t |} =
     body false {| io_world := w1; io_trace := t ++ [Cstdin_isatty] |}) ∧
  (∀ w t w1 w2,
     stdin_isatty w = (Ok true, w1) →
     stdout_isatty w1 = (Ok false, w2) →
     with_configure_tty body {| io_world := w; io_trace := t |} =
     body false {| io_world := w2;
                   io_trace := t ++ [Cstdin_isatty; Cstdout_isatty] |}).
Proof.
  split.
  - intros w t w1 H1. run_io. rewrite H1. cbn.
    by destruct (body false _) as [r st2].
  - intros w t w1 w2 H1 H2. run_io. rewrite H1. cbn. rewrite H2. cbn.
    rewrite <- !app_assoc. cbn [app].
    by destruct (body false _) as [r st2].
Qed.

(** X16.  The set-up stands before the [try]: when [tcgetattr] or
    [setcbreak] raises, the exception comes out of the [with] statement,
    the body does not run and [tcsetattr] is not called -- also when it is
    [setcbreak] that failed, after the mode had been read. *)
Theorem configure_tty_setup_failure {A} (body : bool → IO Mode File W A)
    w t w1 w2 fd w3 :
  stdin_isatty w = (Ok true, w1) →
  stdout_isatty w1 = (Ok true, w2) →
  stdin_fileno w2 = (Ok fd, w3) →
  (∀ e w4,
     tcgetattr fd w3 = (Raise e, w4) →
     with_configure_tty body {| io_world := w; io_trace := t |} =
       (Raise e,
        {| io_world := w4;
           io_trace := t ++ [Cstdin_isatty; Cstdout_isatty; Cstdin_fileno;
                             Ctcgetattr fd] |})) ∧
  (∀ original_mode w4 e w5,
     tcgetattr fd w3 = (Ok original_mode, w4) →
     setcbreak fd w4 = (Raise e, w5) →
     with_configure_tty body {| io_world := w; io_trace := t |} =
       (Raise e,
        {| io_world := w5;
           io_trace := t ++ [Cstdin_isatty; Cstdout_isatty; Cstdin_fileno;
                             Ctcgetattr fd; Csetcbreak fd] |})).
Proof.
  intros H1 H2 H3. split.
  - intros e w4 H4. run_io.
    rewrite H1. cbn. rewrite H2. cbn. rewrite H3. cbn. rewrite H4. cbn.
    by rewrite <- !app_assoc.
  - intros m w4 e w5 H4 H5. run_io.
    rewrite H1. cbn. rewrite H2. cbn. rewrite H3. cbn. rewrite H4. cbn.
    rewrite H5. cbn. by rewrite <- !app_assoc.
Qed.
End ConfigureTty.

(** X14 at work: the terminal is in mode 7; the body, which finds it in
    cbreak mode (1), is ended by [KeyboardInterrupt]; the exception comes
    out and the terminal is back in mode 7. *)
Lemma configure_tty_restores_mode_witness :
  let w := {| Console.piped := false; Console.hung_up := false;
              Console.termios_mode := 7; Console.nonblocking := ∅;
              Console.queued := EmptyString |} in
  let body (isatty : bool) : Posix.IO Z Console.file Console.world () :=
    λ st, if decide (Console.termios_mode (Posix.io_world st) = 1)
          then (Raise (OtherError "KeyboardInterrupt"), st)
          else (Ok (), st) in
  Posix.with_configure_tty body {| Posix.io_world := w; Posix.io_trace := [] |} =
    (Raise (OtherError "KeyboardInterrupt"),
     {| Posix.io_world := w;
        Posix.io_trace :=
          [Posix.Cstdin_isatty; Posix.Cstdout_isatty; Posix.Cstdin_fileno;
           Posix.Ctcgetattr 0; Posix.Csetcbreak 0; Posix.Ctcsetattr 0 2 7] |}).
Proof.
  intros w body.
  exact (configure_tty_restores_mode body w [] w w 0 w 7 w (Console.set_mode 1 w)
           eq_refl eq_refl eq_refl eq_refl eq_refl).
Defined.

(** X15 at work: with standard output piped, the body runs with [False] and
    the terminal is never touched. *)
Lemma configure_tty_without_terminal_witness :
  let w := {| Console.piped := true; Console.hung_up := false;
              Console.termios_mode := 7; Console.nonblocking := ∅;
              Console.queued := EmptyString |} in
  let body (isatty : bool) : Posix.IO Z Console.file Console.world bool :=
    λ st, (Ok isatty, st) in
  Posix.with_configure_tty body {| Posix.io_world := w; Posix.io_trace := [] |} =
    (Ok false,
     {| Posix.io_world := w;
        Posix.io_trace := [Posix.Cstdin_isatty; Posix.Cstdout_isatty] |}).
Proof.
  intros w body.
  exact (proj2 (configure_tty_without_terminal body) w [] w w eq_refl eq_refl).
Defined.

(** X16 at work: on a terminal that has hung up [setcbreak] fails; the body
    is not run and nothing is restored. *)
Lemma configure_tty_setup_failure_witness :
  let w := {| Console.piped := false; Console.hung_up := true;
              Console.termios_mode := 7; Console.nonblocking := ∅;
              Console.queued := EmptyString |} in
  let body (isatty : bool) : Posix.IO Z Console.file Console.world () :=
    λ st, (Ok (), st) in
  Posix.with_configure_tty body {| Posix.io_world := w; Posix.io_trace := [] |} =
    (Raise (OtherError "termios.error"),
     {| Posix.io_world := w;
        Posix.io_trace :=
          [Posix.Cstdin_isatty; Posix.Cstdout_isatty; Posix.Cstdin_fileno;
           Posix.Ctcgetattr 0; Posix.Csetcbreak 0] |}).
Proof.
  intros w body.
  exact (proj2 (configure_tty_setup_failure body w [] w w 0 w
                  eq_refl eq_refl eq_refl)
           7 w (OtherError "termios.error") w eq_refl eq_refl).
Defined.

(** ** discard_input *)

Section DiscardInput.
Import Posix.
Context {Mode File W : Type} `{!Os Mode File W}.
Implicit Types (st : io_state Mode File W) (fileobj : File).

(** X17.  Whenever [discard_input(fileobj, bufsize)] returns, it has made
    exactly six calls, each on what the ones before it gave:
    [fileobj.fileno()], which gave [fd]; the switch of [fd] to non-blocking
    mode; one single read of at most 1048576 bytes from [fd], which
    returned or raised an instance of [OSError]; the reset of the status
    flags of [fd] to 0; [os.dup(fd)], which gave [newfd]; and [os.fdopen]
    of [newfd] with [fileobj]'s mode and the given buffer size, which gave
    the file object that is returned. *)
Theorem discard_input_returns fileobj bufsize st newfile st' :
  discard_input fileobj bufsize st = (Ok newfile, st') →
  ∃ fd w1 r1 w2 r2 w4 newfd w5,
    let read := os_read fd 1048576 w2 in
    file_fileno fileobj (io_world st) = (Ok fd, w1) ∧
    fcntl fd F_SETFL O_NONBLOCK w1 = (Ok r1, w2) ∧
    match read.1 with
    | Ok _ => True
    | Raise e => isinstance_OSError e = true
    end ∧
    fcntl fd F_SETFL 0 read.2 = (Ok r2, w4) ∧
    os_dup fd w4 = (Ok newfd, w5) ∧
    os_fdopen newfd (file_mode fileobj) bufsize w5 =
      (Ok newfile, io_world st') ∧
    io_trace st' = io_trace st ++
      [Cfile_fileno fileobj; Cfcntl fd F_SETFL O_NONBLOCK; Cread fd 1048576;
       Cfcntl fd F_SETFL 0; Cdup fd;
       Cfdopen newfd (file_mode fileobj) bufsize].
Proof.
  run_io. change Posix._everything with 1048576.
  destruct (file_fileno fileobj (io_world st)) as [[fd|e] w1]; [|done].
  cbn. destruct (fcntl fd F_SETFL O_NONBLOCK w1) as [[r1|e] w2] eqn:H1;
    [|done].
  cbn. destruct (os_read fd 1048576 w2) as [[data|e] w3] eqn:Hread.
  all: cbn; try destruct (isinstance_OSError e) eqn:He; try done; cbn.
  all: destruct (fcntl fd F_SETFL 0 w3) as [[r2|e2] w4] eqn:H2; [|done]; cbn.
  all: destruct (os_dup fd w4) as [[newfd|e3] w5] eqn:H3; [|done]; cbn.
  all: destruct (os_fdopen newfd (file_mode fileobj) bufsize w5)
         as [[f|e4] w6] eqn:Hopen; [|done]; cbn.
  all: intros [= <- <-]; exists fd, w1, r1, w2, r2, w4, newfd, w5; cbn.
  all: rewrite Hread; cbn; rewrite <- !app_assoc; done.
Qed.

(** X18.  What [discard_input] makes of the read, once [fileobj.fileno()]
    has given [fd] and [fd] is in non-blocking mode.  What the read
    returns is not looked at, and an exception of the read that is an
    instance of [OSError] is dropped: in both cases [discard_input] goes on
    with the reset of the status flags, [os.dup] and [os.fdopen], and ends
    as they do ([after]).  Any other exception of the read comes out of
    [discard_input] at once: the read is its last call, so the reset is
    not made and the descriptor stays in non-blocking mode. *)
Theorem discard_input_read_error fileobj bufsize st fd w1 r1 w2 :
  file_fileno fileobj (io_world st) = (Ok fd, w1) →
  fcntl fd F_SETFL O_NONBLOCK w1 = (Ok r1, w2) →
  let before := [Cfile_fileno fileobj; Cfcntl fd F_SETFL O_NONBLOCK;
                 Cread fd _everything] in
  let after w3 :=
    match fcntl fd F_SETFL 0 w3 with
    | (Raise e, w4) =>
        (Raise e,
         {| io_world := w4;
            io_trace := io_trace st ++ before ++ [Cfcntl fd F_SETFL 0] |})
    | (Ok _, w4) =>
        match os_dup fd w4 with
        | (Raise e, w5) =>
            (Raise e,
             {| io_world := w5;
                io_trace := io_trace st ++ before ++
                            [Cfcntl fd F_SETFL 0; Cdup fd] |})
        | (Ok newfd, w5) =>
            let opened := os_fdopen newfd (file_mode fileobj) bufsize w5 in
            (opened.1,
             {| io_world := opened.2;
                io_trace := io_trace st ++ before ++
                            [Cfcntl fd F_SETFL 0; Cdup fd;
                             Cfdopen newfd (file_mode fileobj) bufsize] |})
        end
    end in
  (∀ data w3,
     os_read fd _everything w2 = (Ok data, w3) →
     discard_input fileobj bufsize st = after w3) ∧
  (∀ e w3,
     os_read fd _everything w2 = (Raise e, w3) →
     discard_input fileobj bufsize st =
       if isinstance_OSError e then after w3
       else (Raise e, {| io_world := w3; io_trace := io_trace st ++ before |})).
Proof.
  intros H1 H2 before after.
  assert (∀ w3 t,
    t = (((io_trace st ++ [Cfile_fileno fileobj]) ++
          [Cfcntl fd F_SETFL O_NONBLOCK]) ++ [Cread fd _everything]) →
    (let '(r, w) := fcntl fd F_SETFL 0 w3 in
     match r with
     | Ok _ =>
         let '(r', w') := os_dup fd w in
         match r' with
         | Ok newfd =>
             let '(r'', w'') :=
               os_fdopen newfd (file_mode fileobj) bufsize w' in
             (r'', {| io_world := w'';
                      io_trace := ((t ++ [Cfcntl fd F_SETFL 0]) ++ [Cdup fd])
                                  ++ [Cfdopen newfd (file_mode fileobj)
                                        bufsize] |})
         | Raise e =>
             (Raise e, {| io_world := w';
                          io_trace := (t ++ [Cfcntl fd F_SETFL 0]) ++
                                      [Cdup fd] |})
         end
     | Raise e =>
         (Raise e, {| io_world := w;
                      io_trace := t ++ [Cfcntl fd F_SETFL 0] |})
     end) = after w3) as Hafter.
  { intros w3 t ->. subst after. cbn beta.
    destruct (fcntl fd F_SETFL 0 w3) as [[r2|e2] w4];
      [|by rewrite <- !app_assoc].
    destruct (os_dup fd w4) as [[newfd|e3] w5]; [|by rewrite <- !app_assoc].
    destruct (os_fdopen _ _ _ w5) as [r5 w6]. cbn.
    by rewrite <- !app_assoc. }
  split.
  - intros data w3 H3. rewrite <- (Hafter w3 _ eq_refl). run_io.
    rewrite H1. cbn. rewrite H2. cbn. rewrite H3. cbn.
    destruct (fcntl fd F_SETFL 0 w3) as [[r2|e2] w4]; cbn; [|done].
    destruct (os_dup fd w4) as [[newfd|e3] w5]; cbn; [|done].
    by destruct (os_fdopen _ _ _ w5) as [r5 w6].
  - intros e w3 H3. destruct (isinstance_OSError e) eqn:He.
    + rewrite <- (Hafter w3 _ eq_refl). run_io.
      rewrite H1. cbn. rewrite H2. cbn. rewrite H3. cbn. rewrite He. cbn.
      destruct (fcntl fd F_SETFL 0 w3) as [[r2|e2] w4]; cbn; [|done].
      destruct (os_dup fd w4) as [[newfd|e3] w5]; cbn; [|done].
      by destruct (os_fdopen _ _ _ w5) as [r5 w6].
    + run_io. rewrite H1. cbn. rewrite H2. cbn. rewrite H3. cbn.
      rewrite He. subst before. by rewrite <- !app_assoc.
Qed.
End DiscardInput.

(** X17 at work: three characters are queued on descriptor 3; they are
    read and dropped, the descriptor is blocking again, and the new file
    object stands on the duplicate, descriptor 103, with the mode of the
    old one. *)
Lemma discard_input_returns_witness :
  let w := {| Console.piped := false; Console.hung_up := false;
              Console.termios_mode := 7; Console.nonblocking := ∅;
              Console.queued := "abc" |} in
  let f := {| Console.file_fd := 3; Console.mode := "r" |} in
  let st := {| Posix.io_world := w; Posix.io_trace := [] |} in
  let st' := (Posix.discard_input f 4096 st).2 in
  (Console.queued (Posix.io_world st') = EmptyString ∧
   3 ∉ Console.nonblocking (Posix.io_world st')) ∧
  ∃ fd w1 r1 w2 r2 w4 newfd w5,
    let read := Posix.os_read fd 1048576 w2 in
    Posix.file_fileno f w = (Ok fd, w1) ∧
    Posix.fcntl fd 4 2048 w1 = (Ok r1, w2) ∧
    match read.1 with
    | Ok _ => True
    | Raise e => Posix.isinstance_OSError e = true
    end ∧
    Posix.fcntl fd 4 0 read.2 = (Ok r2, w4) ∧
    Posix.os_dup fd w4 = (Ok newfd, w5) ∧
    Posix.os_fdopen newfd "r" 4096 w5 =
      (Ok {| Console.file_fd := 103; Console.mode := "r" |},
       Posix.io_world st') ∧
    Posix.io_trace st' =
      [Posix.Cfile_fileno f; Posix.Cfcntl fd 4 2048; Posix.Cread fd 1048576;
       Posix.Cfcntl fd 4 0; Posix.Cdup fd; Posix.Cfdopen newfd "r" 4096].
Proof.
  intros w f st st'. split.
  - split; [reflexivity|]. vm_compute. set_solver.
  - exact (discard_input_returns f 4096 st
             {| Console.file_fd := 103; Console.mode := "r" |} st' eq_refl).
Defined.

(** X18 at work, on descriptor 3.  With nothing queued the read fails with
    [EAGAIN], which is dropped: [discard_input] returns the new file
    object and the descriptor is blocking again.  On a terminal that has
    hung up the read is cut short by [KeyboardInterrupt], which comes out
    and leaves the descriptor in non-blocking mode. *)
Lemma discard_input_read_error_witness :
  let idle := {| Console.piped := false; Console.hung_up := false;
                 Console.termios_mode := 7; Console.nonblocking := ∅;
                 Console.queued := EmptyString |} in
  let gone := {| Console.piped := false; Console.hung_up := true;
                 Console.termios_mode := 7; Console.nonblocking := ∅;
                 Console.queued := EmptyString |} in
  let f := {| Console.file_fd := 3; Console.mode := "r" |} in
  let st w := {| Posix.io_world := w; Posix.io_trace := [] |} in
  let before := [Posix.Cfile_fileno f; Posix.Cfcntl 3 4 2048;
                 Posix.Cread 3 1048576] in
  Posix.discard_input f 4096 (st idle) =
    (Ok {| Console.file_fd := 103; Console.mode := "r" |},
     {| Posix.io_world :=
          Console.set_nonblocking ((∅ ∪ {[3]}) ∖ {[3]}) idle;
        Posix.io_trace :=
          before ++ [Posix.Cfcntl 3 4 0; Posix.Cdup 3;
                     Posix.Cfdopen 103 "r" 4096] |}) ∧
  Posix.discard_input f 4096 (st gone) =
    (Raise (OtherError "KeyboardInterrupt"),
     {| Posix.io_world := Console.set_nonblocking (∅ ∪ {[3]}) gone;
        Posix.io_trace := before |}).
Proof.
  intros idle gone f st before. split.
  - exact (proj2 (discard_input_read_error f 4096 (st idle) 3 idle 0
                    (Console.set_nonblocking (∅ ∪ {[3]}) idle)
                    eq_refl eq_refl)
             (IOError (Some 11))
             (Console.set_nonblocking (∅ ∪ {[3]}) idle) eq_refl).
  - exact (proj2 (discard_input_read_error f 4096 (st gone) 3 gone 0
                    (Console.set_nonblocking (∅ ∪ {[3]}) gone)
                    eq_refl eq_refl)
             (OtherError "KeyboardInterrupt")
             (Console.set_nonblocking (∅ ∪ {[3]}) gone) eq_refl).
Defined.

(** ** More on cpu_count *)

Section CpuCountBounds.
Import CpuCount.
Local Open Scope string_scope.




End CpuCountBounds.


(** ** The map as a function of the calls *)

Section Replay.
Context {Obj W : Type} `{!Platform Obj W}.
Implicit Types (s : state Obj W) (obj : Obj).

(** X13.  With a stable [fileno()], the registration map after any
    sequence of calls is the map before it with the additions and removals
    of the [register] and [unregister] calls carried out in order: it does
    not depend on what the kernel answered, on the flags, on what was done
    with the generator, nor on the class, so that [EPoll] and [KQueue]
    given the same registrations hold the same map. *)
Theorem fdmap_replays_calls (fd_of : Obj → Z) :
  stable_fileno fd_of →
  (∀ fuel acts g s,
     fdmap (EPoll.session fuel acts g s).2 =
     replay fd_of (omap epoll_change acts) (fdmap s)) ∧
  (∀ fuel acts g s,
     fdmap (KQueue.session fuel acts g s).2 =
     replay fd_of (omap kqueue_change acts) (fdmap s)).
Proof.
  intros Hstable. split; intros fuel acts.
  - induction acts as [|[obj fl|obj|x] acts IH]; intros g s; [done|..].
    + cbn [EPoll.session]. rewrite IH.
      by rewrite (epoll_register_fdmap fd_of Hstable).
    + cbn [EPoll.session]. rewrite IH.
      by rewrite (epoll_unregister_fdmap fd_of Hstable).
    + rewrite epoll_session_resume. cbn [snd]. cbn zeta. rewrite IH.
      by rewrite epoll_resume_fdmap.
  - induction acts as [|[obj|obj|x] acts IH]; intros g s; [done|..].
    + cbn [KQueue.session]. rewrite IH.
      by rewrite (kqueue_register_fdmap fd_of Hstable).
    + cbn [KQueue.session]. rewrite IH.
      by rewrite (kqueue_unregister_fdmap fd_of Hstable).
    + rewrite kqueue_session_resume. cbn [snd]. cbn zeta. rewrite IH.
      by rewrite kqueue_resume_fdmap.
Qed.
End Replay.

(** X13 at work: A and C are registered, the generator is resumed, A is
    unregistered; both classes are left with C alone, under descriptor 7. *)
Lemma fdmap_replays_calls_witness :
  let w : Scripted.world := [Ok [(5, 1)]] in
  let e := [EPoll.Register Scripted.A None; EPoll.Register Scripted.C (Some 4);
            EPoll.Resume Next; EPoll.Unregister Scripted.A] in
  let k := [KQueue.Register Scripted.A; KQueue.Register Scripted.C;
            KQueue.Resume Next; KQueue.Unregister Scripted.A] in
  fdmap (EPoll.session 1 e EPoll.events (EPoll.init w)).2 =
    delete 5 (<[7 := Scripted.C]> (<[5 := Scripted.A]> ∅)) ∧
  fdmap (KQueue.session 1 k KQueue.events (KQueue.init w)).2 =
    delete 5 (<[7 := Scripted.C]> (<[5 := Scripted.A]> ∅)).
Proof.
  intros w e k.
  pose proof (fdmap_replays_calls Scripted.fd scripted_fileno_stable)
    as [He Hk].
  split.
  - exact (He 1%nat e EPoll.events (EPoll.init w)).
  - exact (Hk 1%nat k KQueue.events (KQueue.init w)).
Defined.
